(** * Matpack: strided ranges, iterators and views over a shared buffer

    A shallow embedding of [src/matpackI.h] (the array core of the
    simulator): class [Range], the 1D iterators, the vector and matrix
    views and the owning containers' move constructors.  It is followed
    by the row iterators, the quantum-number classes of [src/quantum.h],
    the input check and the grid adjustment of [src/rt4.cc] and the line
    update of [src/m_zeeman.cc].

    Conventions of the embedding.
    - [Index] is a signed machine integer in the source.  Signed overflow
      is undefined there, so the arithmetic is that of [Z] and every
      statement is about executions without overflow.
    - A [Numeric*] is an address counted in elements: [p + n] is pointer
      arithmetic on a [Numeric*], [nullptr] is address [0].  Nothing
      makes address [0] special in the store, so a statement about a
      dereference through a null pointer says of the address reached
      that no element lives there.
    - The store maps the addresses of live elements to their values; a
      dereference outside it has no defined behaviour and is reported as
      [InvalidAccess].
    - [assert] comes from <cassert>: it is evaluated in a [Debug] build
      and compiled out in a [Release] build (NDEBUG defined).
    - [Numeric] is fixed in matpack.h, which is not among the sources verified here;
      it is a parameter here and is instantiated with binary64 floats
      where a concrete run is evaluated. *)

From Stdlib Require Import ZArith Lia List Bool Floats.
From stdpp Require Import base option list gmap strings.

#[local] Open Scope Z_scope.

(** ** Basic types *)

(** [Index] and [Numeric*]: both are integers of the embedding, so the
    names abbreviate [Z]. *)
Abbreviation Index := Z (only parsing).
Abbreviation ptr := Z (only parsing).
Definition nullptr : ptr := 0.

(** class Joker: no members, one global object [joker]. *)
Inductive Joker : Type := joker.

Inductive BuildMode : Type := Debug | Release.

Inductive error : Type :=
| AssertionFailed
| InvalidAccess
| DivisionByZero
| Diverges.

Inductive outcome (A : Type) : Type :=
| Done (a : A)
| Failed (e : error).
Arguments Done {A} a.
Arguments Failed {A} e.

(** ** Executions: build mode, store, failure *)

Module Exec.
Section exec.
Context (Numeric : Type).

Definition M (A : Type) : Type :=
    BuildMode → gmap Z Numeric → outcome (A * gmap Z Numeric).

Definition ret {A} (a : A) : M A := λ _ mem, Done (a, mem).

Definition bind {A B} (k : A → M B) (m : M A) : M B :=
    λ mode mem,
      match m mode mem with
      | Done (a, mem') => k a mode mem'
      | Failed e => Failed e
      end.

Definition raise {A} (e : error) : M A := λ _ _, Failed e.

  (** [assert(cond)] of <cassert>. *)
Definition assert_ (cond : bool) : M unit :=
    λ mode mem,
      match mode with
      | Debug => if cond then Done (tt, mem) else Failed AssertionFailed
      | Release => Done (tt, mem)
      end.

  (** [*p] as an rvalue. *)
Definition load (p : ptr) : M Numeric :=
    λ _ mem,
      match mem !! p with
      | Some x => Done (x, mem)
      | None => Failed InvalidAccess
      end.

  (** [*p = x]. *)
Definition store (p : ptr) (x : Numeric) : M unit :=
    λ _ mem,
      match mem !! p with
      | Some _ => Done (tt, <[p:=x]> mem)
      | None => Failed InvalidAccess
      end.
End exec.

Arguments ret {Numeric A} a.
Arguments bind {Numeric A B} k m.
Arguments raise {Numeric A} e.
Arguments assert_ {Numeric} cond.
Arguments load {Numeric} p.
Arguments store {Numeric} p x.
End Exec.

#[global] Instance exec_ret {Numeric} : MRet (Exec.M Numeric) :=
  λ A, @Exec.ret Numeric A.
#[global] Instance exec_bind {Numeric} : MBind (Exec.M Numeric) :=
  λ A B, @Exec.bind Numeric A B.

(** ** class Range *)

Module Range.
Record t : Type := mk { mstart : Index; mextent : Index; mstride : Index }.

  (** Modelled from the spec: the constructors [Range(Index, Index, Index)],
      [Range(Index, Joker, Index)] and [Range(Joker, Index)], which the
      header only declares (their bodies are in matpackI.cc).  The first
      "constructs directly"; the other two "construct an unbounded range
      starting at start or 0", unbounded being the sentinel extent -1. *)
Definition new (start extent stride : Index) : t := mk start extent stride.
Definition new_joker (start : Index) (j : Joker) (stride : Index) : t :=
    mk start (-1) stride.
Definition of_joker (j : Joker) (stride : Index) : t := mk 0 (-1) stride.

Definition get_start (self : t) : Index := mstart self.
Definition get_extent (self : t) : Index := mextent self.
Definition get_stride (self : t) : Index := mstride self.

  (** [Range operator()(const Range r) const]: range of range. *)
Definition call_range (self r : t) : t :=
    if mextent r <? 0 then
      if mextent self <? 0 then
        new_joker (mstart self + mstart r * mstride self) joker
                  (mstride r * mstride self)
      else
        new (mstart self + mstart r * mstride self) (mextent self)
            (mstride r * mstride self)
    else
      new (mstart self + mstart r * mstride self) (mextent r)
          (mstride r * mstride self).

  (** [Index operator()(const Index i) const]. *)
Definition call_index (self : t) (i : Index) : Index :=
    mstart self + i * mstride self.
End Range.

(** ** class Iterator1D *)

Module Iterator1D.
Record t : Type := mk { mx : ptr; mstride : Index }.

  (** [Iterator1D() = default] with the member initialisers
      [mx{nullptr}] and [mstride{0}]. *)
Definition default : t := mk nullptr 0.

Definition new (x : ptr) (stride : Index) : t := mk x stride.

  (** Prefix [operator++]: [mx += mstride]. *)
Definition op_inc (self : t) : t := mk (mx self + mstride self) (mstride self).

  (** [operator*]: the element [mx] points to, as an lvalue. *)
Definition op_deref (self : t) : ptr := mx self.

  (** [operator!=]. *)
Definition op_neq (self other : t) : bool :=
    if negb (mx self =? mx other) then true else false.

  (** [operator==] (only with libstdc++): [!operator!=(other)]. *)
Definition op_eq (self other : t) : bool := negb (op_neq self other).

  (** [operator-] (only with libstdc++): [(Index)(mx - other.mx) / mstride].
      Integer division truncates towards zero; dividing by zero has no
      defined behaviour. *)
Definition op_sub (self other : t) : outcome Index :=
    if mstride self =? 0 then Failed DivisionByZero
    else Done ((mx self - mx other) ÷ mstride self).
End Iterator1D.

(** ** class ConstIterator1D *)

Module ConstIterator1D.
Record t : Type := mk { mx : ptr; mstride : Index }.

Definition default : t := mk nullptr 0.

Definition new (x : ptr) (stride : Index) : t := mk x stride.

Definition op_inc (self : t) : t := mk (mx self + mstride self) (mstride self).

  (** [operator*]: the element [mx] points to, read. *)
Definition op_deref {Numeric} (self : t) : Exec.M Numeric Numeric :=
    Exec.load (mx self).

Definition op_neq (self other : t) : bool :=
    if negb (mx self =? mx other) then true else false.
End ConstIterator1D.

(** ** class ConstVectorView *)

Module ConstVectorView.
Record t : Type := mk { mrange : Range.t; mdata : ptr }.

  (** The member initialisers [mrange{0, 0}] and [mdata{nullptr}]. *)
Definition default : t := mk (Range.new 0 0 1) nullptr.

  (** [ConstVectorView(const ConstVectorView&) = default]. *)
Definition copy_ctor (v : t) : t := mk (mrange v) (mdata v).

  (** Modelled from the spec: [nelem()], declared in the header and
      defined in matpackI.cc; the extent of the view. *)
Definition nelem (self : t) : Index := Range.mextent (mrange self).

  (** Modelled from the spec: [begin()] and [end()], declared in the
      header and defined in matpackI.cc.  The iterators honour the view's
      stride and "end" is found by comparing raw pointers, so it is the
      address one stride past the last addressed element. *)
Definition begin (self : t) : ConstIterator1D.t :=
    ConstIterator1D.new (mdata self + Range.mstart (mrange self))
                        (Range.mstride (mrange self)).
Definition end_ (self : t) : ConstIterator1D.t :=
    ConstIterator1D.new
      (mdata self + Range.mstart (mrange self)
       + Range.mextent (mrange self) * Range.mstride (mrange self))
      (Range.mstride (mrange self)).

Section ops.
Context {Numeric : Type}.

    (** [Numeric get(Index n) const]: no assertions. *)
Definition get (self : t) (n : Index) : Exec.M Numeric Numeric :=
      Exec.load (mdata self + Range.mstart (mrange self)
                 + n * Range.mstride (mrange self)).

    (** [Numeric operator[](Index n) const]. *)
Definition op_index (self : t) (n : Index) : Exec.M Numeric Numeric :=
      Exec.assert_ (0 <=? n);;
      Exec.assert_ (n <? Range.mextent (mrange self));;
      get self n.

    (** The elements a view addresses, read in index order through
        [operator[]]: how a caller observes "the view reads as {..}". *)
Definition to_list (self : t) : Exec.M Numeric (list Numeric) :=
      mapM (op_index self) (seqZ 0 (nelem self)).
End ops.
End ConstVectorView.

(** ** class VectorView : public ConstVectorView *)

Module VectorView.
Definition t : Type := ConstVectorView.t.

  (** [VectorView(const VectorView&) = default]. *)
Definition copy_ctor (v : t) : t := ConstVectorView.copy_ctor v.

  (** Modelled from the spec: the non-const [begin()] and [end()] of
      matpackI.cc, as for [ConstVectorView]. *)
Definition begin (self : t) : Iterator1D.t :=
    Iterator1D.new
      (ConstVectorView.mdata self
       + Range.mstart (ConstVectorView.mrange self))
      (Range.mstride (ConstVectorView.mrange self)).
Definition end_ (self : t) : Iterator1D.t :=
    Iterator1D.new
      (ConstVectorView.mdata self
       + Range.mstart (ConstVectorView.mrange self)
       + Range.mextent (ConstVectorView.mrange self)
         * Range.mstride (ConstVectorView.mrange self))
      (Range.mstride (ConstVectorView.mrange self)).

  (** Modelled from the spec: [VectorView operator[](const Range& r)] of
      matpackI.cc: "returns a new view composed per §4.1; O(1), no copy". *)
Definition op_index_range (self : t) (r : Range.t) : t :=
    ConstVectorView.mk (Range.call_range (ConstVectorView.mrange self) r)
                       (ConstVectorView.mdata self).

Section ops.
Context {Numeric : Type}.

    (** [Numeric& get(Index n)]: the element as an lvalue, no assertions. *)
Definition get (self : t) (n : Index) : Exec.M Numeric ptr :=
      mret (ConstVectorView.mdata self
            + Range.mstart (ConstVectorView.mrange self)
            + n * Range.mstride (ConstVectorView.mrange self)).

    (** [Numeric& operator[](Index n)]. *)
Definition op_index (self : t) (n : Index) : Exec.M Numeric ptr :=
      Exec.assert_ (0 <=? n);;
      Exec.assert_ (n <? Range.mextent (ConstVectorView.mrange self));;
      get self n.

Variable mul : Numeric → Numeric → Numeric.

    (** The loop of the compound scalar operators, here for [*=]:
        [for (i = begin(); i != e; ++i) *i *= x]. *)
Fixpoint scale (fuel : nat) (i e : Iterator1D.t) (x : Numeric)
      : Exec.M Numeric unit :=
      if Iterator1D.op_neq i e then
        match fuel with
        | O => Exec.raise Diverges
        | S fuel' =>
            a ← Exec.load (Iterator1D.op_deref i);
            Exec.store (Iterator1D.op_deref i) (mul a x);;
            scale fuel' (Iterator1D.op_inc i) e x
        end
      else mret tt.

    (** Modelled from the spec: [VectorView operator*=(Numeric x)] of
        matpackI.cc, the compound scalar operator: every addressed
        element is multiplied by [x] in place. *)
Definition op_mul_assign (self : t) (x : Numeric) : Exec.M Numeric t :=
      scale (Z.to_nat (ConstVectorView.nelem self)) (begin self) (end_ self) x;;
      mret self.
End ops.
End VectorView.

(** ** class Vector : public VectorView *)

Module Vector.
Definition t : Type := VectorView.t.

  (** [Vector(Vector&& v) noexcept : VectorView(std::forward<VectorView>(v))
      { v.mdata = nullptr; }].  [VectorView] declares a copy constructor
      and no move constructor, so the base is copy-constructed.  The
      result is the new object and the state [v] is left in. *)
Definition move_ctor (v : t) : t * t :=
    let self := VectorView.copy_ctor v in
    (self, ConstVectorView.mk (ConstVectorView.mrange v) nullptr).

Section ops.
Context {Numeric : Type}.

    (** The store after [new Numeric[n]] returned [p] and the elements
        were filled from [init]. *)
Fixpoint fill (p : ptr) (init : list Numeric) (mem : gmap Z Numeric)
      : gmap Z Numeric :=
      match init with
      | [] => mem
      | x :: init' => <[p:=x]> (fill (p + 1) init' mem)
      end.

    (** Modelled from the spec: [Vector(std::initializer_list<Numeric>)]
        of matpackI.cc: an owning container created "from an initializer
        sequence" allocates a contiguous backing buffer and views all of
        it.  [base] is the address the allocation returns. *)
Definition from_list (base : ptr) (init : list Numeric)
      : Exec.M Numeric t :=
      λ _ mem,
        Done (ConstVectorView.mk (Range.new 0 (Z.of_nat (length init)) 1) base,
              fill base init mem).
End ops.
End Vector.

(** ** class ConstMatrixView *)

Module ConstMatrixView.
Record t : Type := mk { mrr : Range.t; mcr : Range.t; mdata : ptr }.

  (** The member initialisers [mrr{0, 0, 1}], [mcr{0, 0, 1}] and
      [mdata{nullptr}]. *)
Definition default : t := mk (Range.new 0 0 1) (Range.new 0 0 1) nullptr.

  (** [ConstMatrixView(const ConstMatrixView&) = default]. *)
Definition copy_ctor (m : t) : t := mk (mrr m) (mcr m) (mdata m).

  (** Modelled from the spec: [nrows()] and [ncols()], declared in the
      header and defined in matpackI.cc; the extents of the row and of
      the column range. *)
Definition nrows (self : t) : Index := Range.mextent (mrr self).
Definition ncols (self : t) : Index := Range.mextent (mcr self).

Section ops.
Context {Numeric : Type}.

    (** [Numeric get(Index r, Index c) const]: no assertions. *)
Definition get (self : t) (r c : Index) : Exec.M Numeric Numeric :=
      Exec.load (mdata self + Range.mstart (mrr self)
                 + r * Range.mstride (mrr self)
                 + Range.mstart (mcr self)
                 + c * Range.mstride (mcr self)).

    (** [Numeric operator()(Index r, Index c) const]. *)
Definition op_call (self : t) (r c : Index) : Exec.M Numeric Numeric :=
      Exec.assert_ (0 <=? r);;
      Exec.assert_ (0 <=? c);;
      Exec.assert_ (r <? Range.mextent (mrr self));;
      Exec.assert_ (c <? Range.mextent (mcr self));;
      get self r c.
End ops.
End ConstMatrixView.

(** ** class MatrixView : public ConstMatrixView *)

Module MatrixView.
Definition t : Type := ConstMatrixView.t.

  (** [MatrixView(const MatrixView&) = default]. *)
Definition copy_ctor (m : t) : t := ConstMatrixView.copy_ctor m.

Section ops.
Context {Numeric : Type}.

    (** [Numeric& get(Index r, Index c)]: the element as an lvalue. *)
Definition get (self : t) (r c : Index) : Exec.M Numeric ptr :=
      mret (ConstMatrixView.mdata self
            + Range.mstart (ConstMatrixView.mrr self)
            + r * Range.mstride (ConstMatrixView.mrr self)
            + Range.mstart (ConstMatrixView.mcr self)
            + c * Range.mstride (ConstMatrixView.mcr self)).

    (** [Numeric& operator()(Index r, Index c)]. *)
Definition op_call (self : t) (r c : Index) : Exec.M Numeric ptr :=
      Exec.assert_ (0 <=? r);;
      Exec.assert_ (0 <=? c);;
      Exec.assert_ (r <? Range.mextent (ConstMatrixView.mrr self));;
      Exec.assert_ (c <? Range.mextent (ConstMatrixView.mcr self));;
      get self r c.
End ops.
End MatrixView.

(** ** class Matrix : public MatrixView *)

Module Matrix.
Definition t : Type := MatrixView.t.

  (** [Matrix(Matrix&& v) noexcept : MatrixView(std::forward<MatrixView>(v))
      { v.mdata = nullptr; }]: as for [Vector], the base is
      copy-constructed.  The result is the new object and the state [v]
      is left in. *)
Definition move_ctor (v : t) : t * t :=
    let self := MatrixView.copy_ctor v in
    (self,
     ConstMatrixView.mk (ConstMatrixView.mrr v) (ConstMatrixView.mcr v) nullptr).

  (** [Numeric* get_raw_data()]. *)
Definition get_raw_data (self : t) : ptr := ConstMatrixView.mdata self.
End Matrix.

(** ** class Iterator2D and class ConstIterator2D *)

Module Iterator2D.
Record t : Type := mk { msv : VectorView.t; mstride : Index }.

(** [Iterator2D() = default]: a default [VectorView] and [mstride{0}]. *)
Definition default : t := mk ConstVectorView.default 0.

(** [Iterator2D(const VectorView& x, Index stride) : msv(x), mstride(stride)]. *)
Definition new (x : VectorView.t) (stride : Index) : t :=
  mk (VectorView.copy_ctor x) stride.

(** Prefix [operator++]: [msv.mdata += mstride]. *)
Definition op_inc (self : t) : t :=
  mk (ConstVectorView.mk (ConstVectorView.mrange (msv self))
                         (ConstVectorView.mdata (msv self) + mstride self))
     (mstride self).

(** [operator!=]: compares [msv.mdata + msv.mrange.mstart]. *)
Definition op_neq (self other : t) : bool :=
  if negb (ConstVectorView.mdata (msv self)
           + Range.mstart (ConstVectorView.mrange (msv self))
           =? ConstVectorView.mdata (msv other)
              + Range.mstart (ConstVectorView.mrange (msv other)))
  then true else false.

(** [operator->] and [operator*]: the row, a [VectorView]. *)
Definition op_arrow (self : t) : VectorView.t := msv self.
Definition op_deref (self : t) : VectorView.t := msv self.
End Iterator2D.

Module ConstIterator2D.
Record t : Type := mk { msv : ConstVectorView.t; mstride : Index }.

Definition default : t := mk ConstVectorView.default 0.

(** [ConstIterator2D(const ConstVectorView& x, Index stride)]. *)
Definition new (x : ConstVectorView.t) (stride : Index) : t :=
  mk (ConstVectorView.copy_ctor x) stride.

Definition op_inc (self : t) : t :=
  mk (ConstVectorView.mk (ConstVectorView.mrange (msv self))
                         (ConstVectorView.mdata (msv self) + mstride self))
     (mstride self).

Definition op_neq (self other : t) : bool :=
  if negb (ConstVectorView.mdata (msv self)
           + Range.mstart (ConstVectorView.mrange (msv self))
           =? ConstVectorView.mdata (msv other)
              + Range.mstart (ConstVectorView.mrange (msv other)))
  then true else false.

Definition op_arrow (self : t) : ConstVectorView.t := msv self.
Definition op_deref (self : t) : ConstVectorView.t := msv self.
End ConstIterator2D.

(** * Quantum numbers: [src/quantum.h] *)

(** What a call of the quantum-number classes can do: return, stop at an
    [assert] (in a build with assertions), index a [std::array] outside
    its bounds (no defined behaviour), or throw [std::runtime_error]. *)
Inductive result (A : Type) : Type :=
| Returns (a : A)
| AssertFails
| Undefined
| Throws (what : string).
Arguments Returns {A} a.
Arguments AssertFails {A}.
Arguments Undefined {A}.
Arguments Throws {A} what.

(** [enum class QuantumNumberType : Index]. *)
Module QuantumNumberType.
Inductive t : Type :=
  J | dJ | M | N | dN | S | F | K | Ka | Kc | Omega | i | Lambda | alpha | Sym | parity | v1 | v2 | l2 | v3 | v4 | v5 | v6 | l | pm | r | S_global | X | n_global | C | Hund | FINAL_ENTRY.

(** [Index(qn)]: the enumerators count from [J = 0]. *)
Definition to_Index (qn : t) : Index :=
  match qn with
  | J => 0
  | dJ => 1
  | M => 2
  | N => 3
  | dN => 4
  | S => 5
  | F => 6
  | K => 7
  | Ka => 8
  | Kc => 9
  | Omega => 10
  | i => 11
  | Lambda => 12
  | alpha => 13
  | Sym => 14
  | parity => 15
  | v1 => 16
  | v2 => 17
  | l2 => 18
  | v3 => 19
  | v4 => 20
  | v5 => 21
  | v6 => 22
  | l => 23
  | pm => 24
  | r => 25
  | S_global => 26
  | X => 27
  | n_global => 28
  | C => 29
  | Hund => 30
  | FINAL_ENTRY => 31
  end.

(** [#ID]: the enumerator's identifier as a string. *)
Definition name (qn : t) : string :=
  match qn with
  | J => "J"
  | dJ => "dJ"
  | M => "M"
  | N => "N"
  | dN => "dN"
  | S => "S"
  | F => "F"
  | K => "K"
  | Ka => "Ka"
  | Kc => "Kc"
  | Omega => "Omega"
  | i => "i"
  | Lambda => "Lambda"
  | alpha => "alpha"
  | Sym => "Sym"
  | parity => "parity"
  | v1 => "v1"
  | v2 => "v2"
  | l2 => "l2"
  | v3 => "v3"
  | v4 => "v4"
  | v5 => "v5"
  | v6 => "v6"
  | l => "l"
  | pm => "pm"
  | r => "r"
  | S_global => "S_global"
  | X => "X"
  | n_global => "n_global"
  | C => "C"
  | Hund => "Hund"
  | FINAL_ENTRY => "FINAL_ENTRY"
  end.
End QuantumNumberType.

(** [class QuantumNumbers].  [Rational], [RATIONAL_UNDEFINED],
    [Rational::isUndefined] and the output operator of [Rational] come
    from rational.h, which is not among the sources verified here: they
    are parameters. *)
Module QuantumNumbers.
Section with_rational.
Variable Rational : Type.
Variable RATIONAL_UNDEFINED : Rational.
Variable isUndefined : Rational → bool.
Variable show : Rational → string.

(** [std::array<Rational, Index(QuantumNumberType::FINAL_ENTRY)>]: the
    elements in order; [wf] says there are 31 of them. *)
Record t : Type := mk { mqnumbers : list Rational }.

Definition wf (self : t) : Prop := length (mqnumbers self) = 31%nat.

(** [constexpr QuantumNumbers() noexcept]: 31 times [RATIONAL_UNDEFINED]. *)
Definition default : t := mk (replicate 31 RATIONAL_UNDEFINED).

(** [mqnumbers[n]] as an rvalue and [mqnumbers[n] = r]: [std::array]
    checks nothing. *)
Definition array_get (a : list Rational) (n : Index) : result Rational :=
  if 0 <=? n then
    match a !! Z.to_nat n with
    | Some x => Returns x
    | None => Undefined
    end
  else Undefined.

Definition array_set (a : list Rational) (n : Index) (x : Rational)
  : result (list Rational) :=
  if (0 <=? n) && (n <? Z.of_nat (length a)) then
    Returns (<[Z.to_nat n:=x]> a)
  else Undefined.

(** [Rational operator[](const Index qn) const noexcept]. *)
Definition op_index (self : t) (qn : Index) : result Rational :=
  array_get (mqnumbers self) qn.

(** [Rational operator[](const QuantumNumberType qn) const noexcept]. *)
Definition op_index_type (self : t) (qn : QuantumNumberType.t)
  : result Rational :=
  array_get (mqnumbers self) (QuantumNumberType.to_Index qn).

(** [void Set(Index qn, Rational r)]. *)
Definition Set_index (mode : BuildMode) (self : t) (qn : Index)
           (r : Rational) : result t :=
  match mode, qn <? QuantumNumberType.to_Index QuantumNumberType.FINAL_ENTRY with
  | Debug, false => AssertFails
  | _, _ =>
      match array_set (mqnumbers self) qn r with
      | Returns a => Returns (mk a)
      | AssertFails => AssertFails
      | Undefined => Undefined
      | Throws what => Throws what
      end
  end.

(** [void Set(QuantumNumberType qn, Rational r)]. *)
Definition Set_type (mode : BuildMode) (self : t) (qn : QuantumNumberType.t)
           (r : Rational) : result t :=
  match mode, qn with
  | Debug, QuantumNumberType.FINAL_ENTRY => AssertFails
  | _, _ =>
      match array_set (mqnumbers self) (QuantumNumberType.to_Index qn) r with
      | Returns a => Returns (mk a)
      | AssertFails => AssertFails
      | Undefined => Undefined
      | Throws what => Throws what
      end
  end.

(** [void Set(String name, Rational r)]: the chain of [INPUT_QUANTUM(ID)],
    each [if (name == #ID) this->Set(QuantumNumberType::ID, r)], and the
    final [throw]. *)
Definition Set_name (mode : BuildMode) (self : t) (name : string)
           (r : Rational) : result t :=
  if String.eqb name "J" then Set_type mode self QuantumNumberType.J r
  else if String.eqb name "dJ" then Set_type mode self QuantumNumberType.dJ r
  else if String.eqb name "M" then Set_type mode self QuantumNumberType.M r
  else if String.eqb name "N" then Set_type mode self QuantumNumberType.N r
  else if String.eqb name "dN" then Set_type mode self QuantumNumberType.dN r
  else if String.eqb name "S" then Set_type mode self QuantumNumberType.S r
  else if String.eqb name "F" then Set_type mode self QuantumNumberType.F r
  else if String.eqb name "K" then Set_type mode self QuantumNumberType.K r
  else if String.eqb name "Ka" then Set_type mode self QuantumNumberType.Ka r
  else if String.eqb name "Kc" then Set_type mode self QuantumNumberType.Kc r
  else if String.eqb name "Omega" then Set_type mode self QuantumNumberType.Omega r
  else if String.eqb name "i" then Set_type mode self QuantumNumberType.i r
  else if String.eqb name "Lambda" then Set_type mode self QuantumNumberType.Lambda r
  else if String.eqb name "alpha" then Set_type mode self QuantumNumberType.alpha r
  else if String.eqb name "Sym" then Set_type mode self QuantumNumberType.Sym r
  else if String.eqb name "parity" then Set_type mode self QuantumNumberType.parity r
  else if String.eqb name "v1" then Set_type mode self QuantumNumberType.v1 r
  else if String.eqb name "v2" then Set_type mode self QuantumNumberType.v2 r
  else if String.eqb name "l2" then Set_type mode self QuantumNumberType.l2 r
  else if String.eqb name "v3" then Set_type mode self QuantumNumberType.v3 r
  else if String.eqb name "v4" then Set_type mode self QuantumNumberType.v4 r
  else if String.eqb name "v5" then Set_type mode self QuantumNumberType.v5 r
  else if String.eqb name "v6" then Set_type mode self QuantumNumberType.v6 r
  else if String.eqb name "l" then Set_type mode self QuantumNumberType.l r
  else if String.eqb name "pm" then Set_type mode self QuantumNumberType.pm r
  else if String.eqb name "r" then Set_type mode self QuantumNumberType.r r
  else if String.eqb name "S_global" then Set_type mode self QuantumNumberType.S_global r
  else if String.eqb name "X" then Set_type mode self QuantumNumberType.X r
  else if String.eqb name "n_global" then Set_type mode self QuantumNumberType.n_global r
  else if String.eqb name "C" then Set_type mode self QuantumNumberType.C r
  else if String.eqb name "Hund" then Set_type mode self QuantumNumberType.Hund r
  else Throws ("Unknown quantum number: " +:+ name +:+ " (" +:+ show r
               +:+ ").").

(** [const QuantumContainer& GetNumbers() const]. *)
Definition GetNumbers (self : t) : list Rational := mqnumbers self.

(** [Index nNumbers() const]: [std::accumulate] from 0 with
    [r.isUndefined() ? i : i + 1]. *)
Definition nNumbers (self : t) : Index :=
  fold_left (λ (i : Index) (r : Rational), if isUndefined r then i else i + 1)
            (mqnumbers self) 0.
End with_rational.

Arguments mk {Rational} _.
Arguments mqnumbers {Rational} _.
Arguments wf {Rational} self.
Arguments default {Rational} RATIONAL_UNDEFINED.
Arguments array_get {Rational} a n.
Arguments array_set {Rational} a n x.
Arguments op_index {Rational} self qn.
Arguments op_index_type {Rational} self qn.
Arguments Set_index {Rational} mode self qn r.
Arguments Set_type {Rational} mode self qn r.
Arguments Set_name {Rational} show mode self name r.
Arguments GetNumbers {Rational} self.
Arguments nNumbers {Rational} isUndefined self.
End QuantumNumbers.

(** [class QuantumIdentifier].  [QuantumNumbers::Compare] is declared in
    the header and defined in quantum.cc, which is not among the sources
    verified here: it is a parameter. *)
Module QuantumIdentifier.
Inductive QType : Type := TRANSITION | ENERGY_LEVEL | ALL | NONE.

Definition QType_eqb (a b : QType) : bool :=
  match a, b with
  | TRANSITION, TRANSITION | ENERGY_LEVEL, ENERGY_LEVEL
  | ALL, ALL | NONE, NONE => true
  | _, _ => false
  end.

Section with_rational.
Variable Rational : Type.
Variable RATIONAL_UNDEFINED : Rational.
Variable Compare : QuantumNumbers.t Rational → QuantumNumbers.t Rational → bool.

(** [std::array<QuantumNumbers, 2> mqm]: the elements at index 0 and 1. *)
Record t : Type := mk {
  mqtype : QType;
  mspecies : Index;
  miso : Index;
  mqm : QuantumNumbers.t Rational * QuantumNumbers.t Rational
}.

(** [TRANSITION_UPPER_INDEX = 0], [TRANSITION_LOWER_INDEX = 1],
    [ENERGY_LEVEL_INDEX = 0]. *)
Definition TRANSITION_UPPER (a : t) : QuantumNumbers.t Rational := (mqm a).1.
Definition TRANSITION_LOWER (a : t) : QuantumNumbers.t Rational := (mqm a).2.
Definition ENERGY_LEVEL_NUMBERS (a : t) : QuantumNumbers.t Rational :=
  (mqm a).1.

(** [constexpr QuantumIdentifier() noexcept]. *)
Definition default : t :=
  mk NONE (-1) (-1) (QuantumNumbers.default RATIONAL_UNDEFINED,
                     QuantumNumbers.default RATIONAL_UNDEFINED).

(** [QuantumIdentifier(qt, species, iso)]. *)
Definition new_typed (qt : QType) (species iso : Index) : t :=
  mk qt species iso (QuantumNumbers.default RATIONAL_UNDEFINED,
                     QuantumNumbers.default RATIONAL_UNDEFINED).

(** [QuantumIdentifier(spec, isot, upper, lower)]: [mqm({upper, lower})]. *)
Definition new_transition (spec isot : Index)
           (upper lower : QuantumNumbers.t Rational) : t :=
  mk TRANSITION spec isot (upper, lower).

(** [QuantumIdentifier(spec, isot, qnr)]: [mqm({qnr})], the second
    element is a default [QuantumNumbers]. *)
Definition new_energy_level (spec isot : Index)
           (qnr : QuantumNumbers.t Rational) : t :=
  mk ENERGY_LEVEL spec isot (qnr, QuantumNumbers.default RATIONAL_UNDEFINED).

Definition SetSpecies (self : t) (sp : Index) : t :=
  mk (mqtype self) sp (miso self) (mqm self).
Definition SetIsotopologue (self : t) (iso : Index) : t :=
  mk (mqtype self) (mspecies self) iso (mqm self).
(** [void SetTransition() { mqtype = TRANSITION; }]. *)
Definition SetTransition0 (self : t) : t :=
  mk TRANSITION (mspecies self) (miso self) (mqm self).

Definition Type_ (self : t) : QType := mqtype self.
Definition Species (self : t) : Index := mspecies self.
Definition Isotopologue (self : t) : Index := miso self.
Definition QuantumMatch (self : t)
  : QuantumNumbers.t Rational * QuantumNumbers.t Rational := mqm self.

Definition UpperQuantumId (self : t) : t :=
  new_energy_level (mspecies self) (miso self) (TRANSITION_UPPER self).
Definition LowerQuantumId (self : t) : t :=
  new_energy_level (mspecies self) (miso self) (TRANSITION_LOWER self).

(** The accessors guarded by [assert(mqtype == ...)]. *)
Definition UpperQuantumNumbers (mode : BuildMode) (self : t)
  : result (QuantumNumbers.t Rational) :=
  match mode, QType_eqb (mqtype self) TRANSITION with
  | Debug, false => AssertFails
  | _, _ => Returns (TRANSITION_UPPER self)
  end.
Definition LowerQuantumNumbers (mode : BuildMode) (self : t)
  : result (QuantumNumbers.t Rational) :=
  match mode, QType_eqb (mqtype self) TRANSITION with
  | Debug, false => AssertFails
  | _, _ => Returns (TRANSITION_LOWER self)
  end.
Definition UpperQuantumNumber (mode : BuildMode) (self : t)
           (X : QuantumNumberType.t) : result Rational :=
  match mode, QType_eqb (mqtype self) TRANSITION with
  | Debug, false => AssertFails
  | _, _ => QuantumNumbers.op_index_type (TRANSITION_UPPER self) X
  end.
Definition LowerQuantumNumber (mode : BuildMode) (self : t)
           (X : QuantumNumberType.t) : result Rational :=
  match mode, QType_eqb (mqtype self) TRANSITION with
  | Debug, false => AssertFails
  | _, _ => QuantumNumbers.op_index_type (TRANSITION_LOWER self) X
  end.
Definition EnergyLevelQuantumNumbers (mode : BuildMode) (self : t)
  : result (QuantumNumbers.t Rational) :=
  match mode, QType_eqb (mqtype self) ENERGY_LEVEL with
  | Debug, false => AssertFails
  | _, _ => Returns (ENERGY_LEVEL_NUMBERS self)
  end.

Definition IsEnergyLevelType (self : t) : bool :=
  QType_eqb (mqtype self) ENERGY_LEVEL.

(** [inline bool operator==(const QuantumIdentifier& a, const
    QuantumIdentifier& b)].  The closing [throw] is for a [QType] outside
    the four enumerators. *)
Definition op_eq (a b : t) : bool :=
  if negb ((Isotopologue a =? Isotopologue b) && (Species a =? Species b)
           && QType_eqb (Type_ a) (Type_ b))
  then false
  else
    match Type_ a with
    | ENERGY_LEVEL => Compare (ENERGY_LEVEL_NUMBERS a) (ENERGY_LEVEL_NUMBERS b)
    | TRANSITION =>
        Compare (TRANSITION_LOWER a) (TRANSITION_LOWER b)
        && Compare (TRANSITION_UPPER a) (TRANSITION_UPPER b)
    | ALL => true
    | NONE => false
    end.

(** [inline bool operator==(const QuantumNumbers& a, const
    QuantumNumbers& b)]. *)
Definition numbers_op_eq (a b : QuantumNumbers.t Rational) : bool :=
  Compare a b && Compare b a.
End with_rational.

Arguments mk {Rational} _ _ _ _.
Arguments mqtype {Rational} _.
Arguments mspecies {Rational} _.
Arguments miso {Rational} _.
Arguments mqm {Rational} _.
Arguments TRANSITION_UPPER {Rational} a.
Arguments TRANSITION_LOWER {Rational} a.
Arguments ENERGY_LEVEL_NUMBERS {Rational} a.
Arguments default {Rational} RATIONAL_UNDEFINED.
Arguments new_typed {Rational} RATIONAL_UNDEFINED qt species iso.
Arguments new_transition {Rational} spec isot upper lower.
Arguments new_energy_level {Rational} RATIONAL_UNDEFINED spec isot qnr.
Arguments SetSpecies {Rational} self sp.
Arguments SetIsotopologue {Rational} self iso.
Arguments SetTransition0 {Rational} self.
Arguments Type_ {Rational} self.
Arguments Species {Rational} self.
Arguments Isotopologue {Rational} self.
Arguments QuantumMatch {Rational} self.
Arguments UpperQuantumId {Rational} RATIONAL_UNDEFINED self.
Arguments LowerQuantumId {Rational} RATIONAL_UNDEFINED self.
Arguments UpperQuantumNumbers {Rational} mode self.
Arguments LowerQuantumNumbers {Rational} mode self.
Arguments UpperQuantumNumber {Rational} mode self X.
Arguments LowerQuantumNumber {Rational} mode self X.
Arguments EnergyLevelQuantumNumbers {Rational} mode self.
Arguments IsEnergyLevelType {Rational} self.
Arguments op_eq {Rational} Compare a b.
Arguments numbers_op_eq {Rational} Compare a b.
End QuantumIdentifier.

(** * The RT4 interface: [src/rt4.cc] *)

Module RT4.
(** The [runtime_error] thrown by [check_rt4_input], named by its [throw]
    statement in source order; [ArrayOutOfRange] is [cloudbox_limits[0]]
    on an empty array. *)
Inductive exn : Type :=
| CloudboxOff
| AtmfieldsNotChecked
| AtmgeomNotChecked
| CloudboxNotChecked
| ScatDataNotChecked
| AtmosphereDimNot1
| StokesDimNot1Or2
| ArrayOutOfRange
| LowerCloudboxLimitNot0
| CloudboxLimitsLength
| NoScatData
| PndFieldNot1D
| QuadTypeTooLong
| UnknownQuadType
| OddNumberOfStreams
| ArbitraryOrientation.

(** The output references [nhstreams], [nhza], [nummu]. *)
Record outputs : Type := mk_outputs {
  nhstreams : Index;
  nhza : Index;
  nummu : Index
}.

Section check.
(** [SingleScatteringData], its member [ptype] and the enumerators
    [PTYPE_TOTAL_RND] and [PTYPE_AZIMUTH_RND] come from optproperties.h,
    which is not among the sources verified here: they are parameters. *)
Variable SingleScatteringData : Type.
Variable ptype : SingleScatteringData → Index.
Variable PTYPE_TOTAL_RND PTYPE_AZIMUTH_RND : Index.

(** The double loop that clears [no_arb_ori]. *)
Definition no_arb_ori (scat_data : list (list SingleScatteringData)) : bool :=
  forallb
    (forallb (λ e, negb (negb (ptype e =? PTYPE_TOTAL_RND)
                         && negb (ptype e =? PTYPE_AZIMUTH_RND))))
    scat_data.

(** [void check_rt4_input(...)]: the outputs as the call leaves them and
    the exception it throws, if any. *)
Definition check_rt4_input (out : outputs)
           (cloudbox_on atmfields_checked atmgeom_checked cloudbox_checked
              scat_data_checked : Index)
           (cloudbox_limits : list Index)
           (scat_data : list (list SingleScatteringData))
           (atmosphere_dim stokes_dim nstreams : Index)
           (quad_type : string)
           (add_straight_angles pnd_ncols : Index)
  : outputs * option exn :=
  if cloudbox_on =? 0 then (out, Some CloudboxOff)
  else if negb (atmfields_checked =? 1) then (out, Some AtmfieldsNotChecked)
  else if negb (atmgeom_checked =? 1) then (out, Some AtmgeomNotChecked)
  else if negb (cloudbox_checked =? 1) then (out, Some CloudboxNotChecked)
  else if negb (scat_data_checked =? 1) then (out, Some ScatDataNotChecked)
  else if negb (atmosphere_dim =? 1) then (out, Some AtmosphereDimNot1)
  else if (stokes_dim <? 0) || (2 <? stokes_dim)
  then (out, Some StokesDimNot1Or2)
  else
    match cloudbox_limits !! 0%nat with
    | None => (out, Some ArrayOutOfRange)
    | Some lower =>
        if negb (lower =? 0) then (out, Some LowerCloudboxLimitNot0)
        else if negb (Z.of_nat (length cloudbox_limits) =? 2 * atmosphere_dim)
        then (out, Some CloudboxLimitsLength)
        else if bool_decide (scat_data = []) then (out, Some NoScatData)
        else if negb (pnd_ncols =? 1) then (out, Some PndFieldNot1D)
        else if (1 <? String.length quad_type)%nat
        then (out, Some QuadTypeTooLong)
        else
          let quad :=
            if String.eqb quad_type "D" || String.eqb quad_type "G" then
              if negb (add_straight_angles =? 0) then Some 1 else Some 0
            else if String.eqb quad_type "L" then Some 0
            else None in
          match quad with
          | None => (out, Some UnknownQuadType)
          | Some za =>
              let out1 := mk_outputs (nhstreams out) za (nummu out) in
              if negb (nstreams ÷ 2 * 2 =? nstreams)
              then (out1, Some OddNumberOfStreams)
              else
                let out3 := mk_outputs (nstreams ÷ 2) za (nstreams ÷ 2 + za) in
                if negb (no_arb_ori scat_data)
                then (out3, Some ArbitraryOrientation)
                else (out3, None)
          end
    end.

(** What the checks accept, condition by condition. *)
Definition accepted
           (cloudbox_on atmfields_checked atmgeom_checked cloudbox_checked
              scat_data_checked : Index)
           (cloudbox_limits : list Index)
           (scat_data : list (list SingleScatteringData))
           (atmosphere_dim stokes_dim nstreams : Index)
           (quad_type : string) (pnd_ncols : Index) : Prop :=
  cloudbox_on ≠ 0
  ∧ atmfields_checked = 1 ∧ atmgeom_checked = 1 ∧ cloudbox_checked = 1
  ∧ scat_data_checked = 1
  ∧ atmosphere_dim = 1
  ∧ 0 ≤ stokes_dim ≤ 2
  ∧ (∃ upper, cloudbox_limits = [0; upper])
  ∧ scat_data ≠ []
  ∧ pnd_ncols = 1
  ∧ (quad_type = "D" ∨ quad_type = "G" ∨ quad_type = "L")
  ∧ (∃ half, nstreams = 2 * half)
  ∧ (∀ l e, l ∈ scat_data → e ∈ l →
            ptype e = PTYPE_TOTAL_RND ∨ ptype e = PTYPE_AZIMUTH_RND).
End check.

Arguments no_arb_ori {SingleScatteringData} ptype PTYPE_TOTAL_RND
  PTYPE_AZIMUTH_RND scat_data.
Arguments check_rt4_input {SingleScatteringData} ptype PTYPE_TOTAL_RND
  PTYPE_AZIMUTH_RND out cloudbox_on atmfields_checked atmgeom_checked
  cloudbox_checked scat_data_checked cloudbox_limits scat_data atmosphere_dim
  stokes_dim nstreams quad_type add_straight_angles pnd_ncols.
Arguments accepted {SingleScatteringData} ptype PTYPE_TOTAL_RND
  PTYPE_AZIMUTH_RND cloudbox_on atmfields_checked atmgeom_checked
  cloudbox_checked scat_data_checked cloudbox_limits scat_data atmosphere_dim
  stokes_dim nstreams quad_type pnd_ncols.
End RT4.

(** [void scat_za_grid_adjust(Vector& scat_za_grid, ConstVectorView
    mu_values, const Index& nummu)] of rt4.cc.  [acos], the arithmetic of
    [Numeric] and the constant [RAD2DEG] are parameters; [c180] is the
    literal [180.]. *)
Module RT4Grid.
Section scat_za_grid.
Context {Numeric : Type}.
Variable acos : Numeric → Numeric.
Variable Nmul Nsub : Numeric → Numeric → Numeric.
Variable RAD2DEG c180 : Numeric.

(** The loop [for (Index j = 0; j < nummu; j++)], from [j] on.  In each
    assignment the right-hand side is evaluated first.  [fuel] bounds the
    number of iterations. *)
Fixpoint adjust_from (fuel : nat) (scat_za_grid : Vector.t)
         (mu_values : ConstVectorView.t) (nummu j : Index)
  : Exec.M Numeric unit :=
  if j <? nummu then
    match fuel with
    | O => Exec.raise Diverges
    | S fuel' =>
        x ← ConstVectorView.op_index mu_values j;
        p ← VectorView.op_index scat_za_grid (nummu - 1 - j);
        Exec.store p (Nmul (acos x) RAD2DEG);;
        y ← ConstVectorView.op_index mu_values j;
        q ← VectorView.op_index scat_za_grid (nummu + j);
        Exec.store q (Nsub c180 (Nmul (acos y) RAD2DEG));;
        adjust_from fuel' scat_za_grid mu_values nummu (j + 1)
    end
  else mret tt.

Definition scat_za_grid_adjust (scat_za_grid : Vector.t)
           (mu_values : ConstVectorView.t) (nummu : Index)
  : Exec.M Numeric unit :=
  adjust_from (Z.to_nat nummu) scat_za_grid mu_values nummu 0.
End scat_za_grid.
End RT4Grid.

(** The address of element [i] of a vector view. *)
Definition element_address (v : ConstVectorView.t) (i : Index) : ptr :=
  ConstVectorView.mdata v + Range.mstart (ConstVectorView.mrange v)
  + i * Range.mstride (ConstVectorView.mrange v).

(** * Zeeman line records: [src/m_zeeman.cc] *)

(** [zeeman_linerecord_precalcModifyFromData].  [LineRecord] with its
    [QuantumIdentity()] and the references [ZeemanModel().gl()] and
    [ZeemanModel().gu()] comes from linerecord.h, and
    [QuantumIdentifier::InLower] and [InUpper] are defined in quantum.cc;
    none is among the sources verified here, so they are parameters:
    [set_gl x line] is [line] after [line.ZeemanModel().gl() = x]. *)
Module Zeeman.
Section modify.
Context {Numeric : Type}.
Variable LineRecord QuantumIdentity_t Key : Type.
Variable QuantumIdentity : LineRecord → QuantumIdentity_t.
Variable InLower InUpper : Key → QuantumIdentity_t → bool.
Variable set_gl set_gu : Numeric → LineRecord → LineRecord.

(** The loop [for (Index k = 0; k < keys.nelem(); k++)] over the keys
    from index [k] on, with the current [upper] and [lower]. *)
Fixpoint scan_keys (keys : list Key) (k : Index) (line : LineRecord)
         (upper lower : Index) : Index * Index :=
  match keys with
  | [] => (upper, lower)
  | qid :: rest =>
      if InLower qid (QuantumIdentity line)
      then scan_keys rest (k + 1) line upper k
      else if InUpper qid (QuantumIdentity line)
           then scan_keys rest (k + 1) line k lower
           else scan_keys rest (k + 1) line upper lower
  end.

(** The body of [for (LineRecord& line : lines)]: the line afterwards
    and the new counters [i] and [j]. *)
Definition modify_line (keys : list Key) (data : ConstVectorView.t)
           (line : LineRecord) (i j : Index)
  : Exec.M Numeric (LineRecord * (Index * Index)) :=
  let '(upper, lower) := scan_keys keys 0 line (-1) (-1) in
  line1 ← (if negb (lower =? -1)
           then x ← ConstVectorView.op_index data lower; mret (set_gl x line)
           else mret line);
  line2 ← (if negb (upper =? -1)
           then x ← ConstVectorView.op_index data upper; mret (set_gu x line1)
           else mret line1);
  mret (line2,
        (if negb (lower =? -1) || negb (upper =? -1) then i + 1 else i,
         if negb (lower =? -1) && negb (upper =? -1) then j + 1 else j)).

Fixpoint modify_lines (keys : list Key) (data : ConstVectorView.t)
         (lines : list LineRecord) (i j : Index)
  : Exec.M Numeric (list LineRecord * (Index * Index)) :=
  match lines with
  | [] => mret ([], (i, j))
  | line :: rest =>
      '(line', (i', j')) ← modify_line keys data line i j;
      '(rest', ij) ← modify_lines keys data rest i' j';
      mret (line' :: rest', ij)
  end.

(** The body of [for (ArrayOfLineRecord& lines : ...)]: the lines
    afterwards and the three numbers written to [out2]: [i],
    [lines.nelem()] and [j]. *)
Definition modify_species (keys : list Key) (data : ConstVectorView.t)
           (lines : list LineRecord)
  : Exec.M Numeric (list LineRecord * (Index * Index * Index)) :=
  '(lines', (i, j)) ← modify_lines keys data lines 0 0;
  mret (lines', (i, Z.of_nat (length lines), j)).

(** The workspace method: it throws before anything else when
    [keys.nelem()] differs from [data.nelem()]. *)
Definition zeeman_linerecord_precalcModifyFromData
           (zeeman_linerecord_precalc : list (list LineRecord))
           (keys : list Key) (data : ConstVectorView.t)
  : result (Exec.M Numeric (list (list LineRecord * (Index * Index * Index)))) :=
  if negb (Z.of_nat (length keys) =? ConstVectorView.nelem data)
  then Throws "Mismatching data and identifier vector"
  else Returns (mapM (modify_species keys data) zeeman_linerecord_precalc).

(** [zeeman_linerecord_precalcPrintMissing]: the loop over the keys that
    sets [found] and leaves at the first key that is in the line's lower
    or upper state. *)
Fixpoint key_found (keys : list Key) (line : LineRecord) : bool :=
  match keys with
  | [] => false
  | key :: rest =>
      if InLower key (QuantumIdentity line)
         || InUpper key (QuantumIdentity line)
      then true
      else key_found rest line
  end.

(** The indices [c[i]] pushed for one species, from line index [j] on. *)
Fixpoint missing_from (keys : list Key) (lines : list LineRecord) (j : Index)
  : list Index :=
  match lines with
  | [] => []
  | line :: rest =>
      if negb (key_found keys line)
      then j :: missing_from keys rest (j + 1)
      else missing_from keys rest (j + 1)
  end.

(** The workspace method: for every species the indices of the lines
    written to [out0] as missing. *)
Definition zeeman_linerecord_precalcPrintMissing
           (zeeman_linerecord_precalc : list (list LineRecord))
           (keys : list Key) : list (list Index) :=
  (λ lines, missing_from keys lines 0) <$> zeeman_linerecord_precalc.
End modify.
End Zeeman.

(** ** Readings used in the statements *)

(** How many elements of a list satisfy [P]. *)
Definition count_if {A : Type} (P : A → bool) (l : list A) : Index :=
  fold_right (λ x n, if P x then n + 1 else n) 0 l.

(** The index of the last key satisfying [P], counting from [k], or
    [none] when there is no such key. *)
Fixpoint last_index {Key : Type} (P : Key → bool) (keys : list Key)
         (k none : Index)
  : Index :=
  match keys with
  | [] => none
  | q :: rest => last_index P rest (k + 1) (if P q then k else none)
  end.


(** The extent that is left of [outer] once [inner]'s start has been
    taken off: the "remaining extent" read as a subtraction. *)
Definition remaining_extent (outer inner : Range.t) : Index :=
  Range.mextent outer - Range.mstart inner.

(** The iterator reached from [begin()] by [i] increments: logical
    position [i] of the view. *)
Definition iterator_at (v : VectorView.t) (i : nat) : Iterator1D.t :=
  Nat.iter i Iterator1D.op_inc (VectorView.begin v).

Definition const_iterator_at (v : ConstVectorView.t) (i : nat)
  : ConstIterator1D.t :=
  Nat.iter i ConstIterator1D.op_inc (ConstVectorView.begin v).

(** The store once the elements at [p], [p + k], ..., [p + (n-1) * k]
    have each been multiplied by [x]. *)
Fixpoint scaled {Numeric} (mul : Numeric → Numeric → Numeric) (n : nat)
         (p : ptr) (k : Index) (x : Numeric) (mem : gmap Z Numeric)
  : gmap Z Numeric :=
  match n with
  | O => mem
  | S n' => scaled mul n' (p + k) k x (alter (λ a, mul a x) p mem)
  end.

(** The run of the sub-view example on binary64 elements:
    [Vector v = {1,2,3,4,5}; sub = v[Range(1,3,1)]], read [sub],
    [sub *= 2], read [v].  [base] is where the vector's buffer is
    allocated. *)
Definition sub_scale_run (base : ptr)
  : Exec.M float (list float * list float) :=
  v ← Vector.from_list base [1; 2; 3; 4; 5]%float;
  let sub := VectorView.op_index_range v (Range.new 1 3 1) in
  before ← ConstVectorView.to_list sub;
  VectorView.op_mul_assign PrimFloat.mul sub 2%float;;
  after ← ConstVectorView.to_list v;
  mret (before, after).

(** A 3x3 matrix filled row-major with 1..9 at address 1, for concrete
    runs. *)
Definition store_1_to_9 : gmap Z float :=
  Vector.fill 1 [1; 2; 3; 4; 5; 6; 7; 8; 9]%float ∅.

Definition matrix_3x3 : ConstMatrixView.t :=
  ConstMatrixView.mk (Range.new 0 3 3) (Range.new 0 3 1) 1.

(** An instance of the rational-number parameters for concrete runs:
    numerator and denominator, undefined when the denominator is 0. *)
Definition ratio : Type := Z * Z.
Definition ratio_undefined : ratio := (0, 0).
Definition ratio_isUndefined (x : ratio) : bool := x.2 =? 0.
Definition ratio_show (x : ratio) : string := "?".
Definition ratio_half : ratio := (1, 2).

(** Scattering elements for concrete runs: an element is its [ptype]. *)
Definition rt4_scat_data : list (list Z) := [[20; 200]; [20]].

(** Concrete data on [store_1_to_9] for runs of the grid adjustment and
    of the Zeeman update: a grid of four elements at addresses 1..4, two
    values at addresses 5 and 6, and lines that are an identity with a
    pair (gl, gu), matched by keys that name a lower and an upper
    identity. *)
Definition grid_view : Vector.t := ConstVectorView.mk (Range.new 0 4 1) 1.
Definition mu_view : ConstVectorView.t :=
  ConstVectorView.mk (Range.new 4 2 1) 1.
Definition mu_at (j : Index) : float := if j =? 0 then 5%float else 6%float.

Definition zeeman_data : ConstVectorView.t :=
  ConstVectorView.mk (Range.new 0 2 1) 1.
Definition zeeman_data_at (k : Index) : float :=
  if k =? 0 then 1%float else 2%float.
Definition zeeman_keys : list (Z * Z) := [(7, 8); (9, 7)].
Definition zeeman_lines : list (list (Z * (float * float))) :=
  [[(7, (0%float, 0%float)); (5, (0%float, 0%float))]].
Definition zeeman_in_lower (key : Z * Z) (id : Z) : bool := key.1 =? id.
Definition zeeman_in_upper (key : Z * Z) (id : Z) : bool := key.2 =? id.
Definition zeeman_set_gl (x : float) (line : Z * (float * float))
  : Z * (float * float) := (line.1, (x, line.2.2)).
Definition zeeman_set_gu (x : float) (line : Z * (float * float))
  : Z * (float * float) := (line.1, (line.2.1, x)).

(** * Properties *)

(** ** Executions *)

Lemma run_bind {Numeric A B} (m : Exec.M Numeric A) (k : A → Exec.M Numeric B)
      mode mem :
  (m ≫= k) mode mem =
  match m mode mem with
  | Done (a, mem') => k a mode mem'
  | Failed e => Failed e
  end.
Proof. reflexivity. Qed.

Lemma run_ret {Numeric A} (a : A) mode (mem : gmap Z Numeric) :
  (mret a : Exec.M Numeric A) mode mem = Done (a, mem).
Proof. reflexivity. Qed.

Lemma run_assert_true {Numeric} mode (mem : gmap Z Numeric) :
  Exec.assert_ true mode mem = Done (tt, mem).
Proof. by destruct mode. Qed.


Lemma run_assert_debug_false {Numeric} (mem : gmap Z Numeric) :
  Exec.assert_ false Debug mem = Failed AssertionFailed.
Proof. reflexivity. Qed.

Lemma run_mapM_cons {Numeric A B} (g : A → Exec.M Numeric B) (a : A)
      (l : list A) mode (mem : gmap Z Numeric) :
  mapM g (a :: l) mode mem
  = match g a mode mem with
    | Done (y, mem') =>
        match mapM g l mode mem' with
        | Done (k, mem'') => Done (y :: k, mem'')
        | Failed e => Failed e
        end
    | Failed e => Failed e
    end.
Proof. reflexivity. Qed.

(** ** Range *)

Lemma call_range_start (outer inner : Range.t) :
  Range.mstart (Range.call_range outer inner)
  = Range.mstart outer + Range.mstart inner * Range.mstride outer.
Proof. unfold Range.call_range. by repeat case_match. Qed.

Lemma call_range_stride (outer inner : Range.t) :
  Range.mstride (Range.call_range outer inner)
  = Range.mstride inner * Range.mstride outer.
Proof. unfold Range.call_range. by repeat case_match. Qed.

Lemma call_range_extent (outer inner : Range.t) :
  Range.mextent (Range.call_range outer inner)
  = if Range.mextent inner <? 0
    then (if Range.mextent outer <? 0 then -1 else Range.mextent outer)
    else Range.mextent inner.
Proof. unfold Range.call_range. by repeat case_match. Qed.

Lemma range_eq (a b : Range.t) :
  Range.mstart a = Range.mstart b →
  Range.mextent a = Range.mextent b →
  Range.mstride a = Range.mstride b →
  a = b.
Proof. destruct a, b; simpl; congruence. Qed.

(** C3.  Range composition is associative: for all ranges [a], [b], [c],
    bounded or not, [a(b(c))] and [a(b)(c)] have the same start, extent
    and stride. *)
Theorem call_range_assoc (a b c : Range.t) :
  Range.call_range a (Range.call_range b c)
  = Range.call_range (Range.call_range a b) c.
Proof.
  apply range_eq.
  - rewrite !call_range_start, call_range_stride. lia.
  - rewrite !call_range_extent.
    destruct (Z.ltb_spec (Range.mextent a) 0),
      (Z.ltb_spec (Range.mextent b) 0), (Z.ltb_spec (Range.mextent c) 0);
      simpl; try done;
      repeat match goal with
             | |- context [?x <? ?y] => destruct (Z.ltb_spec x y)
             end; lia.
  - rewrite !call_range_stride. lia.
Qed.

(** What [operator()(const Range)] computes, field by field: the start
    [outer.start + inner.start * outer.stride], the stride
    [inner.stride * outer.stride], and as extent the inner's extent when
    the inner range is bounded and otherwise the outer's extent as it is
    (the sentinel -1 when the outer range is unbounded too). *)
Theorem call_range_fields (outer inner : Range.t) :
  Range.mstart (Range.call_range outer inner)
  = Range.mstart outer + Range.mstart inner * Range.mstride outer
  ∧ Range.mstride (Range.call_range outer inner)
    = Range.mstride inner * Range.mstride outer
  ∧ Range.mextent (Range.call_range outer inner)
    = if Range.mextent inner <? 0
      then (if Range.mextent outer <? 0 then -1 else Range.mextent outer)
      else Range.mextent inner.
Proof.
  split; [apply call_range_start|].
  split; [apply call_range_stride|apply call_range_extent].
Qed.

(** C1.  The code at the failing input.  The parent range (0, 10, 1)
    composed with the unbounded range that starts at 2 is (2, 10, 1):
    start and stride are as claimed, but the extent is the parent's 10
    and not the 8 elements that remain, so index 9 of the result is
    element 11 of a parent whose last element is 9.  On a buffer of five
    elements the same composition gives (2, 5, 1); index 3 passes both
    bounds assertions and the access is outside the buffer. *)
Theorem call_range_unbounded_overruns :
  Range.call_range (Range.new 0 10 1) (Range.new_joker 2 joker 1)
  = Range.new 2 10 1
  ∧ remaining_extent (Range.new 0 10 1) (Range.new_joker 2 joker 1) = 8
  ∧ Range.call_index
      (Range.call_range (Range.new 0 10 1) (Range.new_joker 2 joker 1)) 9
    = 11
  ∧ Range.call_range (Range.new 0 5 1) (Range.new_joker 2 joker 1)
    = Range.new 2 5 1
  ∧ ConstVectorView.op_index
      (ConstVectorView.mk
         (Range.call_range (Range.new 0 5 1) (Range.new_joker 2 joker 1)) 1)
      3 Debug (Vector.fill 1 [1; 2; 3; 4; 5]%float ∅)
    = Failed InvalidAccess.
Proof. repeat split; vm_compute; reflexivity. Qed.

(** C4.  For a range with start [s], extent [n] and stride [k] and an
    index [0 <= i < n], applying the range to [i] gives [s + i * k]. *)
Theorem call_index_spec (s n k i : Index) :
  0 ≤ i < n →
  Range.call_index (Range.new s n k) i = s + i * k.
Proof. intros _. reflexivity. Qed.

Lemma call_index_spec_witness :
  0 ≤ 4 < 5 ∧ Range.call_index (Range.new 2 5 3) 4 = 14.
Proof. split; [lia | exact (call_index_spec 2 5 3 4 ltac:(lia))]. Defined.

(** Applying a composed range to an index is applying the inner range
    and then the outer one. *)
Lemma call_index_call_range (outer inner : Range.t) (i : Index) :
  Range.call_index (Range.call_range outer inner) i
  = Range.call_index outer (Range.call_index inner i).
Proof.
  unfold Range.call_index.
  rewrite call_range_start, call_range_stride. lia.
Qed.

(** ** Iterators *)

Lemma iter_op_inc_mx (it : Iterator1D.t) (i : nat) :
  Iterator1D.mx (Nat.iter i Iterator1D.op_inc it)
  = Iterator1D.mx it + Z.of_nat i * Iterator1D.mstride it
  ∧ Iterator1D.mstride (Nat.iter i Iterator1D.op_inc it)
    = Iterator1D.mstride it.
Proof.
  induction i as [|i [IHx IHk]]; [simpl; split; lia|].
  rewrite Nat.iter_succ. simpl. rewrite IHx, IHk. split; lia.
Qed.

Lemma const_iter_op_inc_mx (it : ConstIterator1D.t) (i : nat) :
  ConstIterator1D.mx (Nat.iter i ConstIterator1D.op_inc it)
  = ConstIterator1D.mx it + Z.of_nat i * ConstIterator1D.mstride it
  ∧ ConstIterator1D.mstride (Nat.iter i ConstIterator1D.op_inc it)
    = ConstIterator1D.mstride it.
Proof.
  induction i as [|i [IHx IHk]]; [simpl; split; lia|].
  rewrite Nat.iter_succ. simpl. rewrite IHx, IHk. split; lia.
Qed.

Lemma op_neq_eqb (a b : Iterator1D.t) :
  Iterator1D.op_neq a b = negb (Iterator1D.mx a =? Iterator1D.mx b).
Proof. unfold Iterator1D.op_neq. by destruct (_ =? _). Qed.

Lemma const_op_neq_eqb (a b : ConstIterator1D.t) :
  ConstIterator1D.op_neq a b
  = negb (ConstIterator1D.mx a =? ConstIterator1D.mx b).
Proof. unfold ConstIterator1D.op_neq. by destruct (_ =? _). Qed.

(** C6.  Two 1D iterators compare equal exactly when their element
    pointers are the same address, whatever their strides or logical
    positions: the same address with different strides is equal, and the
    same logical position of two views at different addresses is not. *)
Theorem iterator_equality_is_pointer_equality :
  (∀ a b : Iterator1D.t,
      Iterator1D.op_eq a b = true ↔ Iterator1D.mx a = Iterator1D.mx b)
  ∧ (∀ a b : Iterator1D.t,
      Iterator1D.op_neq a b = false ↔ Iterator1D.mx a = Iterator1D.mx b)
  ∧ (∀ a b : ConstIterator1D.t,
      ConstIterator1D.op_neq a b = false
      ↔ ConstIterator1D.mx a = ConstIterator1D.mx b)
  ∧ (∀ (p : ptr) (k1 k2 : Index),
      Iterator1D.op_eq (Iterator1D.new p k1) (Iterator1D.new p k2) = true
      ∧ ConstIterator1D.op_neq (ConstIterator1D.new p k1)
                               (ConstIterator1D.new p k2) = false)
  ∧ (∀ (r : Range.t) (p q : ptr) (i : nat),
      Iterator1D.op_eq (iterator_at (ConstVectorView.mk r p) i)
                       (iterator_at (ConstVectorView.mk r q) i)
      = (p =? q)
      ∧ ConstIterator1D.op_neq (const_iterator_at (ConstVectorView.mk r p) i)
                               (const_iterator_at (ConstVectorView.mk r q) i)
        = negb (p =? q)).
Proof.
  repeat split.
  - unfold Iterator1D.op_eq. rewrite op_neq_eqb, negb_involutive. lia.
  - unfold Iterator1D.op_eq. rewrite op_neq_eqb, negb_involutive. lia.
  - rewrite op_neq_eqb. destruct (Z.eqb_spec (Iterator1D.mx a) (Iterator1D.mx b)); simpl; congruence.
  - rewrite op_neq_eqb. intros ->. by rewrite Z.eqb_refl.
  - rewrite const_op_neq_eqb.
    destruct (Z.eqb_spec (ConstIterator1D.mx a) (ConstIterator1D.mx b)); simpl; congruence.
  - rewrite const_op_neq_eqb. intros ->. by rewrite Z.eqb_refl.
  - unfold Iterator1D.op_eq. rewrite op_neq_eqb. simpl. by rewrite Z.eqb_refl.
  - rewrite const_op_neq_eqb. simpl. by rewrite Z.eqb_refl.
  - unfold Iterator1D.op_eq, iterator_at. rewrite op_neq_eqb, negb_involutive.
    rewrite !(proj1 (iter_op_inc_mx _ _)). simpl.
    repeat match goal with
           | |- context [?x =? ?y] => destruct (Z.eqb_spec x y)
           end; lia || done.
  - unfold const_iterator_at. rewrite const_op_neq_eqb.
    rewrite !(proj1 (const_iter_op_inc_mx _ _)). simpl.
    repeat match goal with
           | |- context [?x =? ?y] => destruct (Z.eqb_spec x y)
           end; simpl; lia || done.
Qed.

(** C10.  [a - b] on [Iterator1D] is the pointer difference divided by
    the left operand's stride.  For two iterators of one view at logical
    positions [i] and [j] it is [i - j] when the view's stride is not
    zero; with a zero stride, as in a default-constructed iterator, the
    divisor is zero and the division is not defined. *)
Theorem iterator_sub_spec :
  (∀ a b : Iterator1D.t,
      Iterator1D.op_sub a b
      = if Iterator1D.mstride a =? 0 then Failed DivisionByZero
        else Done ((Iterator1D.mx a - Iterator1D.mx b) ÷ Iterator1D.mstride a))
  ∧ (∀ (v : VectorView.t) (i j : nat),
      Iterator1D.op_sub (iterator_at v i) (iterator_at v j)
      = if Range.mstride (ConstVectorView.mrange v) =? 0
        then Failed DivisionByZero
        else Done (Z.of_nat i - Z.of_nat j))
  ∧ (∀ b : Iterator1D.t,
      Iterator1D.op_sub Iterator1D.default b = Failed DivisionByZero)
  ∧ (∀ a b : Iterator1D.t,
      (∃ n, Iterator1D.op_sub a b = Done n) ↔ Iterator1D.mstride a ≠ 0).
Proof.
  split; [done|]. split; [|split; [done|]].
  - intros v i j. unfold Iterator1D.op_sub, iterator_at.
    destruct (iter_op_inc_mx (VectorView.begin v) i) as [-> ->].
    destruct (iter_op_inc_mx (VectorView.begin v) j) as [-> _].
    simpl. destruct (Z.eqb_spec (Range.mstride (ConstVectorView.mrange v)) 0)
      as [|Hk]; [done|].
    f_equal.
    set (k := Range.mstride (ConstVectorView.mrange v)) in *.
    replace (_ - _) with ((Z.of_nat i - Z.of_nat j) * k) by lia.
    by apply Z.quot_mul.
  - intros a b. unfold Iterator1D.op_sub.
    destruct (Z.eqb_spec (Iterator1D.mstride a) 0) as [Hk|Hk].
    + split; [by intros [n Hn]|done].
    + split; [done|eauto].
Qed.

(** ** Move construction *)

(** C8.  Move construction of a [Vector] or a [Matrix] hands the backing
    buffer to the new object, which views the same elements, and sets the
    data pointer of the moved-from object to null, so that it no longer
    refers to the buffer. *)
Theorem move_ctor_transfers_buffer :
  (∀ v : Vector.t,
      ConstVectorView.mdata (Vector.move_ctor v).1 = ConstVectorView.mdata v
      ∧ ConstVectorView.mrange (Vector.move_ctor v).1
        = ConstVectorView.mrange v
      ∧ ConstVectorView.mdata (Vector.move_ctor v).2 = nullptr)
  ∧ (∀ m : Matrix.t,
      ConstMatrixView.mdata (Matrix.move_ctor m).1 = ConstMatrixView.mdata m
      ∧ ConstMatrixView.mrr (Matrix.move_ctor m).1 = ConstMatrixView.mrr m
      ∧ ConstMatrixView.mcr (Matrix.move_ctor m).1 = ConstMatrixView.mcr m
      ∧ ConstMatrixView.mdata (Matrix.move_ctor m).2 = nullptr).
Proof. by repeat split. Qed.

(** ** Element access *)

Ltac pass_asserts :=
  repeat (rewrite run_bind;
          first [ rewrite (proj2 (Z.leb_le _ _)) by lia
                | rewrite (proj2 (Z.ltb_lt _ _)) by lia ];
          rewrite run_assert_true).

(** C5.  For a matrix view with row range (rs, re, rk) and column range
    (cs, ce, ck) and valid indices [r], [c], the access [m(r, c)] is the
    buffer element at offset [rs + r * rk + cs + c * ck] from the data
    pointer: the row range applied to [r] plus the column range applied
    to [c]. *)
Theorem matrix_element_access {Numeric} (rs re rk cs ce ck : Index)
        (data : ptr) (r c : Index) (mode : BuildMode) (mem : gmap Z Numeric) :
  0 ≤ r < re →
  0 ≤ c < ce →
  let m := ConstMatrixView.mk (Range.new rs re rk) (Range.new cs ce ck) data in
  ConstMatrixView.op_call m r c mode mem
  = Exec.load (data + (rs + r * rk + cs + c * ck)) mode mem
  ∧ MatrixView.op_call m r c mode mem
    = Done (data + (rs + r * rk + cs + c * ck), mem)
  ∧ rs + r * rk + cs + c * ck
    = Range.call_index (ConstMatrixView.mrr m) r
      + Range.call_index (ConstMatrixView.mcr m) c.
Proof.
  intros Hr Hc m. repeat split.
  - unfold ConstMatrixView.op_call. simpl. pass_asserts.
    unfold ConstMatrixView.get. simpl. f_equal. lia.
  - unfold MatrixView.op_call. simpl. pass_asserts.
    unfold MatrixView.get. simpl. rewrite run_ret. do 2 f_equal. lia.
  - unfold Range.call_index. simpl. lia.
Qed.


Lemma matrix_element_access_witness :
  0 ≤ 2 < 3 ∧ 0 ≤ 0 < 3
  ∧ ConstMatrixView.op_call matrix_3x3 2 0 Debug store_1_to_9
    = Done (7%float, store_1_to_9).
Proof.
  split; [lia|]. split; [lia|].
  unfold matrix_3x3.
  rewrite (proj1 (matrix_element_access 0 3 3 0 3 1 1 2 0 Debug store_1_to_9
                    ltac:(lia) ltac:(lia))).
  vm_compute. reflexivity.
Defined.


(** ** Stores: a filled buffer, a scaled run of elements *)

Section stores.
Context {Numeric : Type}.
Implicit Types (mem : gmap Z Numeric) (l : list Numeric).

Lemma fill_lookup_out p l mem q :
  ¬ (p ≤ q < p + Z.of_nat (length l)) →
  Vector.fill p l mem !! q = mem !! q.
Proof.
  revert p. induction l as [|x l IH]; intros p Hq; simpl in *; [done|].
  rewrite lookup_insert_ne by lia. apply IH. lia.
Qed.

Lemma fill_lookup_in p l mem (i : nat) :
  (i < length l)%nat →
  Vector.fill p l mem !! (p + Z.of_nat i) = l !! i.
Proof.
  revert p i. induction l as [|x l IH]; intros p i Hi; simpl in *; [lia|].
  destruct i as [|i].
  - replace (p + Z.of_nat 0) with p by lia. by rewrite lookup_insert_eq.
  - rewrite lookup_insert_ne by lia.
    replace (p + Z.of_nat (S i)) with (p + 1 + Z.of_nat i) by lia.
    apply IH. lia.
Qed.

Variable mul : Numeric → Numeric → Numeric.

Lemma scaled_lookup_out n p k x mem q :
  (∀ j : nat, (j < n)%nat → q ≠ p + Z.of_nat j * k) →
  scaled mul n p k x mem !! q = mem !! q.
Proof.
  revert p mem. induction n as [|n IH]; intros p mem Hq; simpl; [done|].
  rewrite IH.
  - rewrite lookup_alter_ne; [done|]. specialize (Hq 0%nat). lia.
  - intros j Hj. specialize (Hq (S j)). lia.
Qed.

Lemma scaled_lookup_in n p k x mem (j : nat) :
  k ≠ 0 →
  (j < n)%nat →
  scaled mul n p k x mem !! (p + Z.of_nat j * k)
  = (λ a, mul a x) <$> mem !! (p + Z.of_nat j * k).
Proof.
  intros Hk. revert p mem j.
  induction n as [|n IH]; intros p mem j Hj; [lia|]. simpl.
  destruct j as [|j].
  - rewrite scaled_lookup_out by (intros; nia).
    replace (p + Z.of_nat 0 * k) with p by lia. by rewrite lookup_alter_eq.
  - replace (p + Z.of_nat (S j) * k) with (p + k + Z.of_nat j * k) by lia.
    rewrite IH by lia. rewrite lookup_alter_ne; [done|]. nia.
Qed.

Lemma alter_as_insert (f : Numeric → Numeric) p a mem :
  mem !! p = Some a → <[p:=f a]> mem = alter f p mem.
Proof.
  intros Ha. apply map_eq. intros q.
  destruct (decide (p = q)) as [->|Hpq].
  - by rewrite lookup_insert_eq, lookup_alter_eq, Ha.
  - by rewrite lookup_insert_ne, lookup_alter_ne.
Qed.

Lemma scale_unfold fuel i e x :
  VectorView.scale mul fuel i e x
  = if Iterator1D.op_neq i e then
      match fuel with
      | O => Exec.raise Diverges
      | S fuel' =>
          a ← Exec.load (Iterator1D.op_deref i);
          Exec.store (Iterator1D.op_deref i) (mul a x);;
          VectorView.scale mul fuel' (Iterator1D.op_inc i) e x
      end
    else mret tt.
Proof. by destruct fuel. Qed.

(** The loop of [*=] over [n] mapped elements a non-zero stride apart
    meets its end after exactly [n] steps and scales those elements. *)
Lemma scale_run (n : nat) p k x mode mem :
  k ≠ 0 →
  (∀ j : nat, (j < n)%nat → is_Some (mem !! (p + Z.of_nat j * k))) →
  VectorView.scale mul n (Iterator1D.new p k)
                   (Iterator1D.new (p + Z.of_nat n * k) k) x mode mem
  = Done (tt, scaled mul n p k x mem).
Proof.
  intros Hk. revert p mem.
  induction n as [|n IH]; intros p mem Hmapped; rewrite scale_unfold, op_neq_eqb.
  - simpl. by rewrite (proj2 (Z.eqb_eq _ _)) by lia.
  - cbn [Iterator1D.mx Iterator1D.new].
    rewrite (proj2 (Z.eqb_neq _ _)) by nia. cbn [negb].
    destruct (Hmapped 0%nat ltac:(lia)) as [a Ha].
    replace (p + Z.of_nat 0 * k) with p in Ha by lia.
    rewrite run_bind. unfold Exec.load, Iterator1D.op_deref.
    cbn [Iterator1D.mx Iterator1D.new]. rewrite Ha.
    rewrite run_bind. unfold Exec.store. rewrite Ha.
    replace (Iterator1D.op_inc (Iterator1D.new p k))
      with (Iterator1D.new (p + k) k) by reflexivity.
    replace (p + Z.of_nat (S n) * k) with (p + k + Z.of_nat n * k) by lia.
    rewrite IH.
    + simpl. by rewrite (alter_as_insert (λ a, mul a x) p a mem Ha).
    + intros j Hj. rewrite lookup_insert_ne by nia.
      replace (p + k + Z.of_nat j * k) with (p + Z.of_nat (S j) * k) by lia.
      apply Hmapped. lia.
Qed.

(** [v *= x] on a view with a non-zero stride whose elements are all in
    the store: it returns, and the store is the scaled one. *)
Lemma op_mul_assign_run (v : VectorView.t) x mode mem :
  Range.mstride (ConstVectorView.mrange v) ≠ 0 →
  0 ≤ ConstVectorView.nelem v →
  (∀ j : nat,
      (j < Z.to_nat (ConstVectorView.nelem v))%nat →
      is_Some (mem !! (ConstVectorView.mdata v
                       + Range.mstart (ConstVectorView.mrange v)
                       + Z.of_nat j * Range.mstride (ConstVectorView.mrange v)))) →
  VectorView.op_mul_assign mul v x mode mem
  = Done (v, scaled mul (Z.to_nat (ConstVectorView.nelem v))
                    (ConstVectorView.mdata v
                     + Range.mstart (ConstVectorView.mrange v))
                    (Range.mstride (ConstVectorView.mrange v)) x mem).
Proof.
  intros Hk Hn Hmapped.
  unfold VectorView.op_mul_assign, VectorView.begin, VectorView.end_.
  rewrite run_bind.
  replace (Range.mextent (ConstVectorView.mrange v))
    with (Z.of_nat (Z.to_nat (ConstVectorView.nelem v)))
    by (unfold ConstVectorView.nelem in *; lia).
  by rewrite scale_run.
Qed.

(** Reading a view whose addressed elements are in the store. *)
Lemma mapM_op_index_run (v : ConstVectorView.t) mode mem (f : Z → Numeric)
      (idx : list Z) :
  (∀ i, i ∈ idx →
        0 ≤ i < ConstVectorView.nelem v
        ∧ mem !! (ConstVectorView.mdata v
                  + Range.mstart (ConstVectorView.mrange v)
                  + i * Range.mstride (ConstVectorView.mrange v))
          = Some (f i)) →
  mapM (ConstVectorView.op_index v) idx mode mem = Done (f <$> idx, mem).
Proof.
  induction idx as [|i idx IH]; intros Hidx; [done|].
  destruct (Hidx i ltac:(left)) as [Hi Hlook].
  unfold ConstVectorView.nelem in Hi.
  assert (ConstVectorView.op_index v i mode mem = Done (f i, mem)) as Hhead.
  { unfold ConstVectorView.op_index. pass_asserts.
    unfold ConstVectorView.get, Exec.load. by rewrite Hlook. }
  rewrite run_mapM_cons, Hhead, IH; [done|].
  intros i' Hi'. apply Hidx. by right.
Qed.

Lemma to_list_run (v : ConstVectorView.t) mode mem (f : Z → Numeric) :
  (∀ i, 0 ≤ i < ConstVectorView.nelem v →
        mem !! (ConstVectorView.mdata v
                + Range.mstart (ConstVectorView.mrange v)
                + i * Range.mstride (ConstVectorView.mrange v))
        = Some (f i)) →
  ConstVectorView.to_list v mode mem
  = Done (f <$> seqZ 0 (ConstVectorView.nelem v), mem).
Proof.
  intros Hread. apply mapM_op_index_run.
  intros i Hi%elem_of_seqZ. split; [lia|]. apply Hread. lia.
Qed.

End stores.

(** ** The sub-view example *)

(** C9.  With [v = {1,2,3,4,5}] and [sub = v[Range(1,3,1)]], [sub] reads
    {2,3,4}; after [sub *= 2] the owner reads {1,4,6,8,5}: the elements
    the sub-view addresses are doubled through the shared buffer, [v[0]]
    and [v[4]] are unchanged, and so is every address outside the
    buffer.  This holds in either build and wherever the buffer is
    allocated. *)
Theorem sub_view_scaling (mode : BuildMode) (mem : gmap Z float)
        (base : ptr) :
  ∃ mem' : gmap Z float,
    sub_scale_run base mode mem
    = Done (([2; 3; 4]%float, [1; 4; 6; 8; 5]%float), mem')
    ∧ ∀ q : ptr, ¬ (base ≤ q < base + 5) → mem' !! q = mem !! q.
Proof.
  unfold sub_scale_run. rewrite run_bind.
  unfold Vector.from_list. cbn [length]. change (Z.of_nat 5) with 5.
  set (mem1 := Vector.fill base [1; 2; 3; 4; 5]%float mem).
  set (v := ConstVectorView.mk (Range.new 0 5 1) base).
  set (sub := VectorView.op_index_range v (Range.new 1 3 1)).
  assert (∀ (j : nat) (a : ptr),
            (j < 5)%nat → a = base + Z.of_nat j →
            mem1 !! a = [1; 2; 3; 4; 5]%float !! j) as Hmem1.
  { intros j a Hj ->. by apply fill_lookup_in. }
  (* sub reads {2,3,4} *)
  rewrite run_bind.
  rewrite (to_list_run sub mode mem1
             (λ i, nth (Z.to_nat i) [2; 3; 4]%float 0%float)).
  2:{ intros i Hi. change (ConstVectorView.nelem sub) with 3 in Hi.
      assert (i = 0 ∨ i = 1 ∨ i = 2) as [-> | [-> | ->]] by lia; simpl.
      - by rewrite (Hmem1 1%nat) by lia.
      - by rewrite (Hmem1 2%nat) by lia.
      - by rewrite (Hmem1 3%nat) by lia. }
  (* sub *= 2 *)
  rewrite run_bind.
  rewrite (op_mul_assign_run PrimFloat.mul sub 2%float mode mem1);
    [|done|done|].
  2:{ intros j Hj.
      change (Z.to_nat (ConstVectorView.nelem sub)) with 3%nat in Hj.
      simpl. rewrite (Hmem1 (S j)) by lia.
      apply lookup_lt_is_Some. simpl. lia. }
  change (Z.to_nat (ConstVectorView.nelem sub)) with 3%nat.
  change (ConstVectorView.mdata sub + Range.mstart (ConstVectorView.mrange sub))
    with (base + 1).
  change (Range.mstride (ConstVectorView.mrange sub)) with 1.
  set (mem2 := scaled PrimFloat.mul 3 (base + 1) 1 2%float mem1).
  assert (∀ (j : nat) (a : ptr),
            (j < 3)%nat → a = base + 1 + Z.of_nat j * 1 →
            mem2 !! a = (λ x, PrimFloat.mul x 2) <$> mem1 !! a) as Hin.
  { intros j a Hj ->. by apply scaled_lookup_in. }
  assert (∀ a : ptr, ¬ (base + 1 ≤ a < base + 4) → mem2 !! a = mem1 !! a)
    as Hout.
  { intros a Ha. apply scaled_lookup_out. intros j Hj. lia. }
  (* v reads {1,4,6,8,5} *)
  rewrite run_bind.
  rewrite (to_list_run v mode mem2
             (λ i, nth (Z.to_nat i) [1; 4; 6; 8; 5]%float 0%float)).
  2:{ intros i Hi. change (ConstVectorView.nelem v) with 5 in Hi.
      assert (i = 0 ∨ i = 1 ∨ i = 2 ∨ i = 3 ∨ i = 4)
        as [-> | [-> | [-> | [-> | ->]]]] by lia; simpl.
      - rewrite Hout by lia. by rewrite (Hmem1 0%nat) by lia.
      - rewrite (Hin 0%nat) by lia. by rewrite (Hmem1 1%nat) by lia.
      - rewrite (Hin 1%nat) by lia. by rewrite (Hmem1 2%nat) by lia.
      - rewrite (Hin 2%nat) by lia. by rewrite (Hmem1 3%nat) by lia.
      - rewrite Hout by lia. by rewrite (Hmem1 4%nat) by lia. }
  exists mem2. split; [done|].
  intros q Hq. rewrite Hout by lia.
  apply fill_lookup_out. simpl. lia.
Qed.

(** The example run evaluated on the empty store with the buffer at
    address 1, in a build with assertions. *)
Lemma sub_scale_run_evaluated :
  sub_scale_run 1 Debug ∅
  = Done (([2; 3; 4]%float, [1; 4; 6; 8; 5]%float),
          Vector.fill 1 [1; 4; 6; 8; 5]%float ∅).
Proof. vm_compute. reflexivity. Qed.

(** * Further properties of the array core *)

Lemma run_load {Numeric} (p : ptr) (x : Numeric) (mem : gmap Z Numeric)
      (mode : BuildMode) :
  mem !! p = Some x → Exec.load p mode mem = Done (x, mem).
Proof. intros H. unfold Exec.load. by rewrite H. Qed.

Lemma run_store {Numeric} (p : ptr) (x : Numeric) (mem : gmap Z Numeric)
      (mode : BuildMode) :
  is_Some (mem !! p) → Exec.store p x mode mem = Done (tt, <[p:=x]> mem).
Proof. intros [y H]. unfold Exec.store. by rewrite H. Qed.

(** ** Ranges and sub-views *)

(** X1.  Applying a composed range to an index is applying the inner
    range first and the outer range to the result, for every pair of
    ranges (bounded or not) and every index. *)
Theorem call_range_then_index (outer inner : Range.t) (i : Index) :
  Range.call_index (Range.call_range outer inner) i
  = Range.call_index outer (Range.call_index inner i).
Proof.
  unfold Range.call_index.
  rewrite call_range_start, call_range_stride. lia.
Qed.

(** X2.  A range with start 0, stride 1 and a negative extent (what
    [joker] stands for) is a unit of composition on ranges whose extent
    is at least -1: composing with it on either side gives the range
    back. *)
Theorem call_range_joker_unit (r j : Range.t) :
  -1 ≤ Range.mextent r →
  Range.mstart j = 0 →
  Range.mstride j = 1 →
  Range.mextent j < 0 →
  Range.call_range r j = r ∧ Range.call_range j r = r.
Proof.
  intros Hr Hs Hk He. split; apply range_eq;
    rewrite ?call_range_start, ?call_range_stride, ?call_range_extent,
      ?Hs, ?Hk; try lia.
  - rewrite (proj2 (Z.ltb_lt _ _) He).
    destruct (Z.ltb_spec (Range.mextent r) 0); lia.
  - destruct (Z.ltb_spec (Range.mextent r) 0); [|done].
    rewrite (proj2 (Z.ltb_lt _ _) He). lia.
Qed.

Lemma call_range_joker_unit_witness :
  Range.call_range (Range.new 2 5 3) (Range.of_joker joker 1)
  = Range.new 2 5 3
  ∧ Range.call_range (Range.of_joker joker 1) (Range.new 2 5 3)
    = Range.new 2 5 3.
Proof.
  apply call_range_joker_unit; [simpl; lia | reflexivity | reflexivity
                               | simpl; lia].
Defined.

(** X3.  A negative extent other than -1 does not survive composition
    with an unbounded range: the result carries the sentinel -1, so the
    unbounded range is not a unit there. *)
Theorem call_range_normalises_extent (r j : Range.t) :
  Range.mextent r < 0 →
  Range.mextent j < 0 →
  Range.mextent (Range.call_range r j) = -1
  ∧ Range.mextent (Range.call_range j r) = -1.
Proof.
  intros Hr Hj. rewrite !call_range_extent.
  by rewrite (proj2 (Z.ltb_lt _ _) Hr), (proj2 (Z.ltb_lt _ _) Hj).
Qed.

Lemma call_range_normalises_extent_witness :
  Range.mextent (Range.call_range (Range.mk 0 (-5) 1) (Range.mk 0 (-1) 1)) = -1
  ∧ Range.mextent (Range.call_range (Range.mk 0 (-1) 1) (Range.mk 0 (-5) 1))
    = -1.
Proof. apply call_range_normalises_extent; simpl; lia. Defined.

Lemma const_op_index_get {Numeric} (v : ConstVectorView.t) (i : Index)
      (mode : BuildMode) (mem : gmap Z Numeric) :
  0 ≤ i < Range.mextent (ConstVectorView.mrange v) →
  ConstVectorView.op_index v i mode mem = ConstVectorView.get v i mode mem.
Proof. intros Hi. unfold ConstVectorView.op_index. by pass_asserts. Qed.

Lemma op_index_get {Numeric} (v : VectorView.t) (i : Index)
      (mode : BuildMode) (mem : gmap Z Numeric) :
  0 ≤ i < Range.mextent (ConstVectorView.mrange v) →
  VectorView.op_index v i mode mem
  = Done (ConstVectorView.mdata v + Range.mstart (ConstVectorView.mrange v)
          + i * Range.mstride (ConstVectorView.mrange v), mem).
Proof. intros Hi. unfold VectorView.op_index. by pass_asserts. Qed.

(** X4.  Element [i] of the view over [v]'s buffer whose range is [v]'s
    range composed with [r] is element [r(i)] of [v]: the unchecked [get]
    of both views, const and non-const, reads the same address for every
    [i] and every [r], bounded or not; the checked [operator[]] agrees in
    either build whenever [i] is within [r]'s extent and [r(i)] within
    [v]'s. *)
Theorem sub_view_element {Numeric} (v : ConstVectorView.t) (r : Range.t)
        (i : Index) (mode : BuildMode) (mem : gmap Z Numeric) :
  let sub := ConstVectorView.mk (Range.call_range (ConstVectorView.mrange v) r)
                                (ConstVectorView.mdata v) in
  ConstVectorView.get sub i mode mem
  = ConstVectorView.get v (Range.call_index r i) mode mem
  ∧ VectorView.get sub i mode mem
    = VectorView.get v (Range.call_index r i) mode mem
  ∧ (0 ≤ i < Range.mextent r →
     0 ≤ Range.call_index r i < Range.mextent (ConstVectorView.mrange v) →
     ConstVectorView.op_index sub i mode mem
     = ConstVectorView.op_index v (Range.call_index r i) mode mem
     ∧ VectorView.op_index sub i mode mem
       = VectorView.op_index v (Range.call_index r i) mode mem).
Proof.
  intros sub.
  assert (∀ n, ConstVectorView.mdata sub
               + Range.mstart (ConstVectorView.mrange sub)
               + n * Range.mstride (ConstVectorView.mrange sub)
               = ConstVectorView.mdata v
                 + Range.mstart (ConstVectorView.mrange v)
                 + Range.call_index r n
                   * Range.mstride (ConstVectorView.mrange v)) as Haddr.
  { intros n. subst sub. simpl.
    rewrite call_range_start, call_range_stride. unfold Range.call_index. lia. }
  split; [|split].
  - unfold ConstVectorView.get. by rewrite Haddr.
  - unfold VectorView.get. by rewrite Haddr.
  - intros Hi Hri.
    assert (Range.mextent (ConstVectorView.mrange sub) = Range.mextent r)
      as He.
    { subst sub. simpl. rewrite call_range_extent.
      destruct (Z.ltb_spec (Range.mextent r) 0); [lia|done]. }
    split.
    + rewrite !const_op_index_get by lia.
      unfold ConstVectorView.get. by rewrite Haddr.
    + rewrite !op_index_get by lia. by rewrite Haddr.
Qed.

Lemma sub_view_element_witness :
  ConstVectorView.op_index
    (ConstVectorView.mk
       (Range.call_range (Range.new 0 9 1) (Range.new 1 3 3)) 1)
    2 Debug store_1_to_9
  = Done (8%float, store_1_to_9).
Proof.
  etransitivity;
    [ exact (proj1 (proj2 (proj2 (sub_view_element
                                    (ConstVectorView.mk (Range.new 0 9 1) 1)
                                    (Range.new 1 3 3) 2 Debug store_1_to_9))
                     ltac:(simpl; lia)
                     ltac:(unfold Range.call_index; simpl; lia)))
    | vm_compute; reflexivity ].
Defined.

(** ** Matrix views *)

(** X5.  [m(r, c)] is guarded by four assertions: in a build with
    assertions any index pair outside [0 <= r < nrows], [0 <= c < ncols]
    stops at an assertion, for the const and the non-const operator;
    without assertions [m(r, c)] is the unchecked [get(r, c)] for every
    index pair. *)
Theorem matrix_index_guarded {Numeric} (m : ConstMatrixView.t) (r c : Index)
        (mem : gmap Z Numeric) :
  ¬ (0 ≤ r < Range.mextent (ConstMatrixView.mrr m)
     ∧ 0 ≤ c < Range.mextent (ConstMatrixView.mcr m)) →
  ConstMatrixView.op_call m r c Debug mem = Failed AssertionFailed
  ∧ MatrixView.op_call m r c Debug mem = Failed AssertionFailed
  ∧ ConstMatrixView.op_call m r c Release mem
    = ConstMatrixView.get m r c Release mem
  ∧ MatrixView.op_call m r c Release mem = MatrixView.get m r c Release mem.
Proof.
  intros Hout.
  assert (((0 <=? r) && (0 <=? c)
           && (r <? Range.mextent (ConstMatrixView.mrr m))
           && (c <? Range.mextent (ConstMatrixView.mcr m))) = false) as Hb.
  { apply not_true_is_false. rewrite !andb_true_iff. lia. }
  split; [|split; [|done]].
  - unfold ConstMatrixView.op_call. rewrite !run_bind. simpl.
    destruct (0 <=? r), (0 <=? c),
      (r <? Range.mextent (ConstMatrixView.mrr m)),
      (c <? Range.mextent (ConstMatrixView.mcr m)); done.
  - unfold MatrixView.op_call. rewrite !run_bind. simpl.
    destruct (0 <=? r), (0 <=? c),
      (r <? Range.mextent (ConstMatrixView.mrr m)),
      (c <? Range.mextent (ConstMatrixView.mcr m)); done.
Qed.

Lemma matrix_index_guarded_witness :
  ConstMatrixView.op_call matrix_3x3 1 3 Debug store_1_to_9
  = Failed AssertionFailed
  ∧ MatrixView.op_call matrix_3x3 1 3 Debug store_1_to_9
    = Failed AssertionFailed
  ∧ ConstMatrixView.op_call matrix_3x3 1 3 Release store_1_to_9
    = ConstMatrixView.get matrix_3x3 1 3 Release store_1_to_9
  ∧ MatrixView.op_call matrix_3x3 1 3 Release store_1_to_9
    = MatrixView.get matrix_3x3 1 3 Release store_1_to_9.
Proof. apply matrix_index_guarded. simpl. lia. Defined.



(** X7.  Element [(r, c)] of the view over [m]'s buffer whose row and
    column ranges are [m]'s composed with [rr] and [rc] is element
    [(rr(r), rc(c))] of [m]: both unchecked accesses read the same
    address. *)
Theorem sub_matrix_element {Numeric} (m : ConstMatrixView.t)
        (rr rc : Range.t) (r c : Index) (mode : BuildMode)
        (mem : gmap Z Numeric) :
  ConstMatrixView.get
    (ConstMatrixView.mk (Range.call_range (ConstMatrixView.mrr m) rr)
                        (Range.call_range (ConstMatrixView.mcr m) rc)
                        (ConstMatrixView.mdata m)) r c mode mem
  = ConstMatrixView.get m (Range.call_index rr r) (Range.call_index rc c)
                        mode mem
  ∧ MatrixView.get
      (ConstMatrixView.mk (Range.call_range (ConstMatrixView.mrr m) rr)
                          (Range.call_range (ConstMatrixView.mcr m) rc)
                          (ConstMatrixView.mdata m)) r c mode mem
    = MatrixView.get m (Range.call_index rr r) (Range.call_index rc c)
                     mode mem.
Proof.
  unfold ConstMatrixView.get, MatrixView.get, Range.call_index. simpl.
  rewrite !call_range_start, !call_range_stride, !run_ret.
  split; [f_equal; lia | do 2 f_equal; lia].
Qed.

(** ** Row iterators *)

Lemma iter2d_op_inc (it : Iterator2D.t) (n : nat) :
  Nat.iter n Iterator2D.op_inc it
  = Iterator2D.mk
      (ConstVectorView.mk
         (ConstVectorView.mrange (Iterator2D.msv it))
         (ConstVectorView.mdata (Iterator2D.msv it)
          + Z.of_nat n * Iterator2D.mstride it))
      (Iterator2D.mstride it).
Proof.
  induction n as [|n IH].
  - simpl. destruct it as [[rg d] k]. simpl. do 2 f_equal. lia.
  - rewrite Nat.iter_succ, IH. unfold Iterator2D.op_inc. simpl.
    do 2 f_equal. lia.
Qed.

Lemma const_iter2d_op_inc (it : ConstIterator2D.t) (n : nat) :
  Nat.iter n ConstIterator2D.op_inc it
  = ConstIterator2D.mk
      (ConstVectorView.mk
         (ConstVectorView.mrange (ConstIterator2D.msv it))
         (ConstVectorView.mdata (ConstIterator2D.msv it)
          + Z.of_nat n * ConstIterator2D.mstride it))
      (ConstIterator2D.mstride it).
Proof.
  induction n as [|n IH].
  - simpl. destruct it as [[rg d] k]. simpl. do 2 f_equal. lia.
  - rewrite Nat.iter_succ, IH. unfold ConstIterator2D.op_inc. simpl.
    do 2 f_equal. lia.
Qed.

(** X8.  Iterating over the rows agrees with 2D element access: the row
    iterator built over the first row of [m] (data pointer advanced by
    the row start, the column range as its range, the row stride as its
    stride) and incremented [r] times is a view whose element [c] is
    [m(r, c)], for the const and the non-const iterator. *)
Theorem row_iterator_element {Numeric} (m : ConstMatrixView.t) (r : nat)
        (c : Index) (mode : BuildMode) (mem : gmap Z Numeric) :
  VectorView.get
    (Iterator2D.op_deref
       (Nat.iter r Iterator2D.op_inc
          (Iterator2D.new
             (ConstVectorView.mk (ConstMatrixView.mcr m)
                (ConstMatrixView.mdata m
                 + Range.mstart (ConstMatrixView.mrr m)))
             (Range.mstride (ConstMatrixView.mrr m))))) c mode mem
  = MatrixView.get m (Z.of_nat r) c mode mem
  ∧ ConstVectorView.get
      (ConstIterator2D.op_deref
         (Nat.iter r ConstIterator2D.op_inc
            (ConstIterator2D.new
               (ConstVectorView.mk (ConstMatrixView.mcr m)
                  (ConstMatrixView.mdata m
                   + Range.mstart (ConstMatrixView.mrr m)))
               (Range.mstride (ConstMatrixView.mrr m))))) c mode mem
    = ConstMatrixView.get m (Z.of_nat r) c mode mem.
Proof.
  rewrite iter2d_op_inc, const_iter2d_op_inc.
  unfold VectorView.get, MatrixView.get, ConstVectorView.get,
    ConstMatrixView.get. simpl. rewrite !run_ret.
  split; [do 2 f_equal; lia | f_equal; lia].
Qed.

(** X9.  Two iterators reached from the same iterator by [i] and by [j]
    increments compare unequal exactly when [i] and [j] differ and the
    stride is not zero.  So a loop [for (; it != end; ++it)] over [n]
    positions does not stop early, and with a zero stride every position
    already equals the end.  This holds for the four iterator classes. *)
Theorem iterator_positions_distinct (i j : nat) :
  (∀ it : Iterator1D.t,
      Iterator1D.op_neq (Nat.iter i Iterator1D.op_inc it)
                        (Nat.iter j Iterator1D.op_inc it)
      = negb ((i =? j)%nat || (Iterator1D.mstride it =? 0)))
  ∧ (∀ it : ConstIterator1D.t,
      ConstIterator1D.op_neq (Nat.iter i ConstIterator1D.op_inc it)
                             (Nat.iter j ConstIterator1D.op_inc it)
      = negb ((i =? j)%nat || (ConstIterator1D.mstride it =? 0)))
  ∧ (∀ it : Iterator2D.t,
      Iterator2D.op_neq (Nat.iter i Iterator2D.op_inc it)
                        (Nat.iter j Iterator2D.op_inc it)
      = negb ((i =? j)%nat || (Iterator2D.mstride it =? 0)))
  ∧ (∀ it : ConstIterator2D.t,
      ConstIterator2D.op_neq (Nat.iter i ConstIterator2D.op_inc it)
                             (Nat.iter j ConstIterator2D.op_inc it)
      = negb ((i =? j)%nat || (ConstIterator2D.mstride it =? 0))).
Proof.
  split; [|split; [|split]]; intros it.
  - rewrite op_neq_eqb, !(proj1 (iter_op_inc_mx _ _)). f_equal.
    destruct (Nat.eqb_spec i j), (Z.eqb_spec (Iterator1D.mstride it) 0);
      simpl; first [apply Z.eqb_eq | apply Z.eqb_neq]; nia.
  - rewrite const_op_neq_eqb, !(proj1 (const_iter_op_inc_mx _ _)). f_equal.
    destruct (Nat.eqb_spec i j), (Z.eqb_spec (ConstIterator1D.mstride it) 0);
      simpl; first [apply Z.eqb_eq | apply Z.eqb_neq]; nia.
  - rewrite !iter2d_op_inc. unfold Iterator2D.op_neq. simpl.
    destruct (Nat.eqb_spec i j), (Z.eqb_spec (Iterator2D.mstride it) 0);
      simpl;
      match goal with
      | |- context [?a =? ?b] => destruct (Z.eqb_spec a b)
      end; simpl; try done; nia.
  - rewrite !const_iter2d_op_inc. unfold ConstIterator2D.op_neq. simpl.
    destruct (Nat.eqb_spec i j), (Z.eqb_spec (ConstIterator2D.mstride it) 0);
      simpl;
      match goal with
      | |- context [?a =? ?b] => destruct (Z.eqb_spec a b)
      end; simpl; try done; nia.
Qed.

(** X10.  Row iterators compare the address of the row start,
    [mdata + start], not the data pointer: two row iterators are equal
    exactly when these sums are equal, whatever their data pointers,
    column extents and strides are. *)
Theorem row_iterator_equality (a b : Iterator2D.t) (c d : ConstIterator2D.t) :
  (Iterator2D.op_neq a b = false
   ↔ ConstVectorView.mdata (Iterator2D.msv a)
     + Range.mstart (ConstVectorView.mrange (Iterator2D.msv a))
     = ConstVectorView.mdata (Iterator2D.msv b)
       + Range.mstart (ConstVectorView.mrange (Iterator2D.msv b)))
  ∧ (ConstIterator2D.op_neq c d = false
     ↔ ConstVectorView.mdata (ConstIterator2D.msv c)
       + Range.mstart (ConstVectorView.mrange (ConstIterator2D.msv c))
       = ConstVectorView.mdata (ConstIterator2D.msv d)
         + Range.mstart (ConstVectorView.mrange (ConstIterator2D.msv d))).
Proof.
  unfold Iterator2D.op_neq, ConstIterator2D.op_neq.
  split;
    match goal with
    | |- context [?x =? ?y] => destruct (Z.eqb_spec x y)
    end; simpl; split; congruence.
Qed.

(** ** Moved-from containers *)



(** * Properties of the quantum-number classes *)

Lemma to_Index_range (qn : QuantumNumberType.t) :
  qn ≠ QuantumNumberType.FINAL_ENTRY →
  0 ≤ QuantumNumberType.to_Index qn < 31.
Proof. destruct qn; simpl; intros H; first [lia | done]. Qed.

Lemma to_Index_inj (a b : QuantumNumberType.t) :
  QuantumNumberType.to_Index a = QuantumNumberType.to_Index b → a = b.
Proof. destruct a, b; simpl; intros H; first [reflexivity | discriminate H]. Qed.

Section quantum_numbers.
Context {Rational : Type}.
Implicit Types (q : QuantumNumbers.t Rational) (r : Rational).

Lemma array_set_in (a : list Rational) (n : Index) r :
  0 ≤ n < Z.of_nat (length a) →
  QuantumNumbers.array_set a n r = Returns (<[Z.to_nat n:=r]> a).
Proof.
  intros Hn. unfold QuantumNumbers.array_set.
  by rewrite (proj2 (Z.leb_le _ _)), (proj2 (Z.ltb_lt _ _)) by lia.
Qed.

Lemma array_set_out (a : list Rational) (n : Index) r :
  ¬ (0 ≤ n < Z.of_nat (length a)) →
  QuantumNumbers.array_set a n r = Undefined.
Proof.
  intros Hn. unfold QuantumNumbers.array_set.
  destruct (Z.leb_spec 0 n), (Z.ltb_spec n (Z.of_nat (length a)));
    simpl; first [done | lia].
Qed.

(** X12.  Setting a quantum number and reading it back: on a container
    of 31 numbers and for every enumerator but [FINAL_ENTRY], [Set]
    returns in either build, the container still has 31 numbers, the
    number set reads back, and every other number is unchanged. *)
Theorem quantum_set_then_get (mode : BuildMode) q
        (qn : QuantumNumberType.t) r :
  QuantumNumbers.wf q →
  qn ≠ QuantumNumberType.FINAL_ENTRY →
  ∃ q',
    QuantumNumbers.Set_type mode q qn r = Returns q'
    ∧ QuantumNumbers.wf q'
    ∧ QuantumNumbers.op_index_type q' qn = Returns r
    ∧ ∀ qn' : QuantumNumberType.t,
        qn' ≠ qn →
        QuantumNumbers.op_index_type q' qn' = QuantumNumbers.op_index_type q qn'.
Proof.
  intros Hwf Hqn. pose proof (to_Index_range qn Hqn) as Hrange.
  unfold QuantumNumbers.wf in Hwf.
  exists (QuantumNumbers.mk
            (<[Z.to_nat (QuantumNumberType.to_Index qn):=r]>
               (QuantumNumbers.mqnumbers q))).
  split; [|split; [|split]].
  - unfold QuantumNumbers.Set_type.
    rewrite array_set_in by lia. by destruct mode, qn.
  - unfold QuantumNumbers.wf. simpl. by rewrite length_insert.
  - unfold QuantumNumbers.op_index_type, QuantumNumbers.array_get. simpl.
    rewrite (proj2 (Z.leb_le _ _)) by lia.
    by rewrite list_lookup_insert_eq by lia.
  - intros qn' Hne.
    unfold QuantumNumbers.op_index_type, QuantumNumbers.array_get. simpl.
    rewrite list_lookup_insert_ne; [done|].
    intros Heq. apply Hne. symmetry. apply to_Index_inj.
    destruct qn, qn'; simpl in *; first [done | lia].
Qed.

(** X25.  [Set(Index qn, r)] asserts only [qn < 31]: on a container of
    31 numbers an index of 31 or more stops at the assertion in a build
    with assertions, but a negative index passes it and, like every
    index outside the array in a build without assertions, writes
    outside the array, which has no defined behaviour. *)
Theorem quantum_set_index_bounds (mode : BuildMode) q (qn : Index) r :
  QuantumNumbers.wf q →
  ¬ (0 ≤ qn < 31) →
  QuantumNumbers.Set_index mode q qn r
  = match mode with
    | Debug => if 31 <=? qn then AssertFails else Undefined
    | Release => Undefined
    end.
Proof.
  intros Hwf Hqn. unfold QuantumNumbers.wf in Hwf.
  unfold QuantumNumbers.Set_index. simpl QuantumNumberType.to_Index.
  rewrite array_set_out by lia.
  destruct mode; [|done].
  destruct (Z.ltb_spec qn 31), (Z.leb_spec 31 qn); first [done | lia].
Qed.

End quantum_numbers.

Lemma quantum_set_then_get_witness :
  ∃ q',
    QuantumNumbers.Set_type Debug (QuantumNumbers.default ratio_undefined)
                            QuantumNumberType.J ratio_half = Returns q'
    ∧ QuantumNumbers.wf q'
    ∧ QuantumNumbers.op_index_type q' QuantumNumberType.J = Returns ratio_half
    ∧ ∀ qn' : QuantumNumberType.t,
        qn' ≠ QuantumNumberType.J →
        QuantumNumbers.op_index_type q' qn'
        = QuantumNumbers.op_index_type
            (QuantumNumbers.default ratio_undefined) qn'.
Proof.
  apply (quantum_set_then_get Debug (QuantumNumbers.default ratio_undefined)
           QuantumNumberType.J ratio_half); [reflexivity | discriminate].
Defined.

Section quantum_names.
Context {Rational : Type}.
Variable show : Rational → string.
Implicit Types (q : QuantumNumbers.t Rational) (r : Rational).

(** X13.  [Set(name, r)] with the identifier of an enumerator other than
    [FINAL_ENTRY] as the name is [Set] of that enumerator: the 31 names
    are told apart exactly, in either build. *)
Theorem quantum_set_by_name (mode : BuildMode) q
        (qn : QuantumNumberType.t) r :
  qn ≠ QuantumNumberType.FINAL_ENTRY →
  QuantumNumbers.Set_name show mode q (QuantumNumberType.name qn) r
  = QuantumNumbers.Set_type mode q qn r.
Proof. intros Hqn. by destruct qn. Qed.

(** X14.  [Set(name, r)] with any other string, among them FINAL_ENTRY,
    the empty string and a name in the wrong case, throws the runtime
    error "Unknown quantum number" and sets nothing. *)
Theorem quantum_set_unknown_name (mode : BuildMode) q (s : string) r :
  (∀ qn : QuantumNumberType.t,
      qn ≠ QuantumNumberType.FINAL_ENTRY → s ≠ QuantumNumberType.name qn) →
  QuantumNumbers.Set_name show mode q s r
  = Throws ("Unknown quantum number: " +:+ s +:+ " (" +:+ show r +:+ ").").
Proof.
  intros H. unfold QuantumNumbers.Set_name.
  repeat match goal with
         | |- context [String.eqb s ?n] =>
             destruct (String.eqb_spec s n) as [Heq|_];
             [ exfalso; revert Heq;
               first
                 [ apply (H QuantumNumberType.J); discriminate
        | apply (H QuantumNumberType.dJ); discriminate
        | apply (H QuantumNumberType.M); discriminate
        | apply (H QuantumNumberType.N); discriminate
        | apply (H QuantumNumberType.dN); discriminate
        | apply (H QuantumNumberType.S); discriminate
        | apply (H QuantumNumberType.F); discriminate
        | apply (H QuantumNumberType.K); discriminate
        | apply (H QuantumNumberType.Ka); discriminate
        | apply (H QuantumNumberType.Kc); discriminate
        | apply (H QuantumNumberType.Omega); discriminate
        | apply (H QuantumNumberType.i); discriminate
        | apply (H QuantumNumberType.Lambda); discriminate
        | apply (H QuantumNumberType.alpha); discriminate
        | apply (H QuantumNumberType.Sym); discriminate
        | apply (H QuantumNumberType.parity); discriminate
        | apply (H QuantumNumberType.v1); discriminate
        | apply (H QuantumNumberType.v2); discriminate
        | apply (H QuantumNumberType.l2); discriminate
        | apply (H QuantumNumberType.v3); discriminate
        | apply (H QuantumNumberType.v4); discriminate
        | apply (H QuantumNumberType.v5); discriminate
        | apply (H QuantumNumberType.v6); discriminate
        | apply (H QuantumNumberType.l); discriminate
        | apply (H QuantumNumberType.pm); discriminate
        | apply (H QuantumNumberType.r); discriminate
        | apply (H QuantumNumberType.S_global); discriminate
        | apply (H QuantumNumberType.X); discriminate
        | apply (H QuantumNumberType.n_global); discriminate
        | apply (H QuantumNumberType.C); discriminate
        | apply (H QuantumNumberType.Hund); discriminate ]
             | ]
         end.
  reflexivity.
Qed.
End quantum_names.

Lemma quantum_set_by_name_witness :
  QuantumNumbers.Set_name ratio_show Debug
    (QuantumNumbers.default ratio_undefined) "S_global" ratio_half
  = QuantumNumbers.Set_type Debug (QuantumNumbers.default ratio_undefined)
                            QuantumNumberType.S_global ratio_half.
Proof.
  apply (quantum_set_by_name ratio_show Debug
           (QuantumNumbers.default ratio_undefined)
           QuantumNumberType.S_global ratio_half). discriminate.
Defined.

Lemma quantum_set_unknown_name_witness :
  QuantumNumbers.Set_name ratio_show Release
    (QuantumNumbers.default ratio_undefined) "FINAL_ENTRY" ratio_half
  = Throws "Unknown quantum number: FINAL_ENTRY (?).".
Proof.
  apply (quantum_set_unknown_name ratio_show Release
           (QuantumNumbers.default ratio_undefined) "FINAL_ENTRY" ratio_half).
  intros qn Hqn. by destruct qn.
Defined.

Section quantum_count.
Context {Rational : Type}.
Variable isUndefined : Rational → bool.
Implicit Types (q : QuantumNumbers.t Rational) (r : Rational)
         (a : list Rational).

(** What one number adds to [nNumbers]. *)
Let counts r : Z := if isUndefined r then 0 else 1.

Let step (i : Z) r : Z := if isUndefined r then i else i + 1.

Lemma count_shift a (k : Z) : fold_left step a k = k + fold_left step a 0.
Proof.
  revert k. induction a as [|x a IH]; intros k; simpl; [lia|].
  rewrite (IH (step k x)), (IH (step 0 x)). unfold step.
  destruct (isUndefined x); lia.
Qed.

Lemma count_bounds a : 0 ≤ fold_left step a 0 ≤ Z.of_nat (length a).
Proof.
  induction a as [|x a IH]; simpl; [lia|].
  rewrite count_shift.
  assert (0 ≤ step 0 x ≤ 1) by (unfold step; destruct (isUndefined x); lia).
  lia.
Qed.

Lemma count_insert a (n : nat) (old r : Rational) :
  a !! n = Some old →
  fold_left step (<[n:=r]> a) 0
  = fold_left step a 0 - counts old + counts r.
Proof.
  revert n. induction a as [|x a IH]; intros n Hn; [done|].
  destruct n as [|n]; simpl in *.
  - injection Hn as ->. rewrite (count_shift a (step 0 r)),
      (count_shift a (step 0 old)).
    unfold step, counts. destruct (isUndefined r), (isUndefined old); lia.
  - rewrite (count_shift (<[n:=r]> a)), (count_shift a), (IH n Hn). lia.
Qed.

(** X15.  [nNumbers] counts the defined numbers: it is 0 for a
    default-constructed container (whose entries are all
    [RATIONAL_UNDEFINED], an undefined rational) and lies between 0 and
    31 for every container of 31 numbers. *)
Theorem nNumbers_default_and_bounds (U : Rational) q :
  isUndefined U = true →
  QuantumNumbers.wf q →
  QuantumNumbers.nNumbers isUndefined (QuantumNumbers.default U) = 0
  ∧ 0 ≤ QuantumNumbers.nNumbers isUndefined q ≤ 31.
Proof.
  intros HU Hwf. split.
  - unfold QuantumNumbers.nNumbers, QuantumNumbers.default.
    cbn [QuantumNumbers.mqnumbers]. generalize 31%nat. intros n.
    induction n as [|n IH]; [done|].
    cbn [replicate fold_left]. by rewrite HU.
  - unfold QuantumNumbers.nNumbers. unfold QuantumNumbers.wf in Hwf.
    pose proof (count_bounds (QuantumNumbers.mqnumbers q)) as Hb.
    unfold step in Hb. lia.
Qed.

(** X16.  [Set] changes [nNumbers] by what the new number counts minus
    what the old one counted: setting a defined number where an
    undefined one was adds one, overwriting a defined number with a
    defined one leaves the count, and setting [RATIONAL_UNDEFINED]
    removes a defined number from the count. *)
Theorem nNumbers_after_set (mode : BuildMode) q (qn : QuantumNumberType.t)
        (old r : Rational) :
  QuantumNumbers.wf q →
  qn ≠ QuantumNumberType.FINAL_ENTRY →
  QuantumNumbers.op_index_type q qn = Returns old →
  ∃ q',
    QuantumNumbers.Set_type mode q qn r = Returns q'
    ∧ QuantumNumbers.nNumbers isUndefined q'
      = QuantumNumbers.nNumbers isUndefined q
        - (if isUndefined old then 0 else 1)
        + (if isUndefined r then 0 else 1).
Proof.
  intros Hwf Hqn Hold. pose proof (to_Index_range qn Hqn) as Hrange.
  unfold QuantumNumbers.wf in Hwf.
  exists (QuantumNumbers.mk
            (<[Z.to_nat (QuantumNumberType.to_Index qn):=r]>
               (QuantumNumbers.mqnumbers q))).
  split.
  - unfold QuantumNumbers.Set_type.
    rewrite array_set_in by lia. by destruct mode, qn.
  - unfold QuantumNumbers.nNumbers. simpl.
    unfold QuantumNumbers.op_index_type, QuantumNumbers.array_get in Hold.
    rewrite (proj2 (Z.leb_le _ _)) in Hold by lia.
    destruct (QuantumNumbers.mqnumbers q
                !! Z.to_nat (QuantumNumberType.to_Index qn))
      as [x|] eqn:Hx; [|done].
    injection Hold as ->.
    apply (count_insert _ _ _ r Hx).
Qed.
End quantum_count.

Lemma nNumbers_default_and_bounds_witness :
  QuantumNumbers.nNumbers ratio_isUndefined
    (QuantumNumbers.default ratio_undefined) = 0
  ∧ 0 ≤ QuantumNumbers.nNumbers ratio_isUndefined
          (QuantumNumbers.mk (replicate 31 ratio_half)) ≤ 31.
Proof.
  apply (nNumbers_default_and_bounds ratio_isUndefined ratio_undefined
           (QuantumNumbers.mk (replicate 31 ratio_half)));
    reflexivity.
Defined.

Lemma nNumbers_after_set_witness :
  ∃ q',
    QuantumNumbers.Set_type Debug (QuantumNumbers.default ratio_undefined)
                            QuantumNumberType.N ratio_half = Returns q'
    ∧ QuantumNumbers.nNumbers ratio_isUndefined q'
      = QuantumNumbers.nNumbers ratio_isUndefined
          (QuantumNumbers.default ratio_undefined) - 0 + 1.
Proof.
  apply (nNumbers_after_set ratio_isUndefined Debug
           (QuantumNumbers.default ratio_undefined) QuantumNumberType.N
           ratio_undefined ratio_half);
    [reflexivity | discriminate | reflexivity].
Defined.

(** ** Quantum identifiers *)

Section quantum_identifier.
Context {Rational : Type}.
Variable U : Rational.
Variable Compare : QuantumNumbers.t Rational → QuantumNumbers.t Rational → bool.
Implicit Types (a b : QuantumIdentifier.t Rational).

Lemma QType_eqb_eq (s t : QuantumIdentifier.QType) :
  QuantumIdentifier.QType_eqb s t = true ↔ s = t.
Proof. destruct s, t; simpl; split; congruence. Qed.

(** X17.  [a == b] on identifiers requires equal isotopologue, species
    and type whatever [Compare] answers; an identifier of type [NONE] is
    equal to nothing, not even to itself, so two default-constructed
    identifiers are unequal; identifiers of type [ALL] are equal exactly
    when isotopologue, species and type agree, their quantum numbers
    being ignored. *)
Theorem identifier_equality a b :
  (QuantumIdentifier.op_eq Compare a b = true →
   QuantumIdentifier.miso a = QuantumIdentifier.miso b
   ∧ QuantumIdentifier.mspecies a = QuantumIdentifier.mspecies b
   ∧ QuantumIdentifier.mqtype a = QuantumIdentifier.mqtype b)
  ∧ (QuantumIdentifier.mqtype a = QuantumIdentifier.NONE →
     QuantumIdentifier.op_eq Compare a b = false
     ∧ QuantumIdentifier.op_eq Compare a a = false)
  ∧ QuantumIdentifier.op_eq Compare (QuantumIdentifier.default U)
                            (QuantumIdentifier.default U) = false
  ∧ (QuantumIdentifier.mqtype a = QuantumIdentifier.ALL →
     (QuantumIdentifier.op_eq Compare a b = true
      ↔ QuantumIdentifier.miso a = QuantumIdentifier.miso b
        ∧ QuantumIdentifier.mspecies a = QuantumIdentifier.mspecies b
        ∧ QuantumIdentifier.mqtype b = QuantumIdentifier.ALL)).
Proof.
  unfold QuantumIdentifier.op_eq, QuantumIdentifier.Isotopologue,
    QuantumIdentifier.Species, QuantumIdentifier.Type_.
  split; [|split; [|split]].
  - destruct (Z.eqb_spec (QuantumIdentifier.miso a) (QuantumIdentifier.miso b)),
      (Z.eqb_spec (QuantumIdentifier.mspecies a) (QuantumIdentifier.mspecies b)),
      (QuantumIdentifier.QType_eqb (QuantumIdentifier.mqtype a)
                                   (QuantumIdentifier.mqtype b)) eqn:Ht;
      simpl; try done.
    apply QType_eqb_eq in Ht. done.
  - intros ->. split; by repeat case_match.
  - done.
  - intros Ha. rewrite Ha.
    destruct (Z.eqb_spec (QuantumIdentifier.miso a) (QuantumIdentifier.miso b))
      as [Hi|Hi],
      (Z.eqb_spec (QuantumIdentifier.mspecies a) (QuantumIdentifier.mspecies b))
      as [Hs|Hs],
      (QuantumIdentifier.mqtype b); simpl; split;
      first [ done | intros (Hi' & Hs' & Ht'); done ].
Qed.

(** X18.  The identifier of the upper (lower) level of a transition is an
    energy-level identifier of the same species and the same
    isotopologue whose level numbers are the transition's upper (lower)
    numbers; reading them passes the type assertion in either build,
    while asking the result for transition numbers stops at the
    assertion in a build with assertions. *)
Theorem level_identifier_of_transition (mode : BuildMode) a :
  QuantumIdentifier.EnergyLevelQuantumNumbers
    mode (QuantumIdentifier.UpperQuantumId U a)
  = Returns (QuantumIdentifier.TRANSITION_UPPER a)
  ∧ QuantumIdentifier.EnergyLevelQuantumNumbers
      mode (QuantumIdentifier.LowerQuantumId U a)
    = Returns (QuantumIdentifier.TRANSITION_LOWER a)
  ∧ QuantumIdentifier.Species (QuantumIdentifier.UpperQuantumId U a)
    = QuantumIdentifier.Species a
  ∧ QuantumIdentifier.Isotopologue (QuantumIdentifier.UpperQuantumId U a)
    = QuantumIdentifier.Isotopologue a
  ∧ QuantumIdentifier.Species (QuantumIdentifier.LowerQuantumId U a)
    = QuantumIdentifier.Species a
  ∧ QuantumIdentifier.Isotopologue (QuantumIdentifier.LowerQuantumId U a)
    = QuantumIdentifier.Isotopologue a
  ∧ QuantumIdentifier.Type_ (QuantumIdentifier.UpperQuantumId U a)
    = QuantumIdentifier.ENERGY_LEVEL
  ∧ QuantumIdentifier.Type_ (QuantumIdentifier.LowerQuantumId U a)
    = QuantumIdentifier.ENERGY_LEVEL
  ∧ QuantumIdentifier.IsEnergyLevelType (QuantumIdentifier.UpperQuantumId U a)
    = true
  ∧ QuantumIdentifier.IsEnergyLevelType (QuantumIdentifier.LowerQuantumId U a)
    = true
  ∧ QuantumIdentifier.UpperQuantumNumbers
      Debug (QuantumIdentifier.UpperQuantumId U a) = AssertFails
  ∧ QuantumIdentifier.LowerQuantumNumbers
      Debug (QuantumIdentifier.LowerQuantumId U a) = AssertFails.
Proof. by destruct mode. Qed.

(** Without assertions the transition accessors do not look at
    the type: on an energy-level identifier built from the numbers [qnr]
    the upper numbers are [qnr] and the lower numbers are a
    default-constructed container, returned without any error. *)
Theorem transition_accessors_unchecked (spec isot : Index)
        (qnr : QuantumNumbers.t Rational) :
  QuantumIdentifier.UpperQuantumNumbers
    Release (QuantumIdentifier.new_energy_level U spec isot qnr)
  = Returns qnr
  ∧ QuantumIdentifier.LowerQuantumNumbers
      Release (QuantumIdentifier.new_energy_level U spec isot qnr)
    = Returns (QuantumNumbers.default U)
  ∧ QuantumIdentifier.UpperQuantumNumbers
      Debug (QuantumIdentifier.new_energy_level U spec isot qnr)
    = AssertFails
  ∧ QuantumIdentifier.EnergyLevelQuantumNumbers
      Release (QuantumIdentifier.new_transition spec isot qnr
                 (QuantumNumbers.default U))
    = Returns qnr.
Proof. done. Qed.

(** [a == b] on quantum numbers is symmetric whatever [Compare]
    is, and it implies [Compare] in both directions. *)
Theorem numbers_equality_symmetric (x y : QuantumNumbers.t Rational) :
  QuantumIdentifier.numbers_op_eq Compare x y
  = QuantumIdentifier.numbers_op_eq Compare y x
  ∧ (QuantumIdentifier.numbers_op_eq Compare x y = true
     ↔ Compare x y = true ∧ Compare y x = true).
Proof.
  unfold QuantumIdentifier.numbers_op_eq.
  split; [apply andb_comm | apply andb_true_iff].
Qed.
End quantum_identifier.

(** * Properties of the RT4 input check *)

Section rt4_check.
Context {SingleScatteringData : Type}.
Variable ptype : SingleScatteringData → Index.
Variable PTYPE_TOTAL_RND PTYPE_AZIMUTH_RND : Index.
Variable out : RT4.outputs.
Variable cloudbox_on atmfields_checked atmgeom_checked cloudbox_checked
         scat_data_checked : Index.
Variable cloudbox_limits : list Index.
Variable scat_data : list (list SingleScatteringData).
Variable atmosphere_dim stokes_dim nstreams : Index.
Variable quad_type : string.
Variable add_straight_angles pnd_ncols : Index.

Let run : RT4.outputs * option RT4.exn :=
  RT4.check_rt4_input ptype PTYPE_TOTAL_RND PTYPE_AZIMUTH_RND out
    cloudbox_on atmfields_checked atmgeom_checked cloudbox_checked
    scat_data_checked cloudbox_limits scat_data atmosphere_dim stokes_dim
    nstreams quad_type add_straight_angles pnd_ncols.

Lemma no_arb_ori_spec :
  RT4.no_arb_ori ptype PTYPE_TOTAL_RND PTYPE_AZIMUTH_RND scat_data = true
  ↔ ∀ l e, l ∈ scat_data → e ∈ l →
           ptype e = PTYPE_TOTAL_RND ∨ ptype e = PTYPE_AZIMUTH_RND.
Proof.
  unfold RT4.no_arb_ori. rewrite forallb_forall. split.
  - intros H l e Hl He. apply list_elem_of_In in Hl, He.
    specialize (H l Hl). rewrite forallb_forall in H. specialize (H e He).
    destruct (Z.eqb_spec (ptype e) PTYPE_TOTAL_RND),
      (Z.eqb_spec (ptype e) PTYPE_AZIMUTH_RND); simpl in H; auto.
    discriminate H.
  - intros H l Hl. rewrite forallb_forall. intros e He.
    apply list_elem_of_In in Hl, He.
    destruct (H l e Hl He) as [-> | ->]; rewrite Z.eqb_refl; simpl;
      [done | by destruct (_ =? _)].
Qed.

Lemma even_quot (n : Z) : n ÷ 2 * 2 = n ↔ ∃ half, n = 2 * half.
Proof.
  split.
  - intros H. exists (n ÷ 2). lia.
  - intros [half ->]. rewrite (Z.mul_comm 2 half), Z.quot_mul; lia.
Qed.

Lemma cloudbox_limits_shape (l : list Index) (lower dim : Index) :
  l !! 0%nat = Some lower →
  lower = 0 →
  Z.of_nat (length l) = 2 * dim →
  dim = 1 →
  ∃ upper, l = [0; upper].
Proof.
  intros Hl -> Hlen ->. destruct l as [|x [|y [|z l]]]; simpl in *;
    try lia.
  injection Hl as ->. by exists y.
Qed.

Ltac rt4_step :=
  match goal with
  | |- context [if ?c then (_, Some _) else _] =>
      let E := fresh "E" in destruct c eqn:E; [simpl; try done|]
  end.

Ltac rt4_bools :=
  repeat match goal with
         | H : negb _ = false |- _ => apply negb_false_iff in H
         | H : _ || _ = false |- _ =>
             apply orb_false_iff in H; destruct H
         | H : (_ =? _) = true |- _ => apply Z.eqb_eq in H
         | H : (_ =? _) = false |- _ => apply Z.eqb_neq in H
         | H : (_ <? _) = false |- _ => apply Z.ltb_ge in H
         | H : bool_decide _ = false |- _ => apply bool_decide_eq_false in H
         end.

(** X19.  [check_rt4_input] returns without throwing exactly when: the
    cloudbox is on, the four consistency flags are 1, the atmosphere is
    1D, [stokes_dim] is 0, 1 or 2 (0 passes the test although the message
    asks for 1 or 2), [cloudbox_limits] has two entries of which the
    first is 0, there is scattering data, [pnd_ncols] is 1, [quad_type]
    is D, G or L, [nstreams] is even (its sign is not looked at), and
    every scattering element is totally or azimuthally random. *)
Theorem check_rt4_input_accepts :
  run.2 = None
  ↔ RT4.accepted ptype PTYPE_TOTAL_RND PTYPE_AZIMUTH_RND cloudbox_on
      atmfields_checked atmgeom_checked cloudbox_checked scat_data_checked
      cloudbox_limits scat_data atmosphere_dim stokes_dim nstreams quad_type
      pnd_ncols.
Proof.
  unfold run, RT4.check_rt4_input, RT4.accepted. split.
  - do 7 rt4_step.
    destruct (cloudbox_limits !! 0%nat) as [lower|] eqn:Hlow; [|done].
    do 5 rt4_step.
    assert (∀ za : Z,
              (let out1 := RT4.mk_outputs (RT4.nhstreams out) za
                                          (RT4.nummu out) in
               if negb (nstreams ÷ 2 * 2 =? nstreams)
               then (out1, Some RT4.OddNumberOfStreams)
               else
                 let out3 := RT4.mk_outputs (nstreams ÷ 2) za
                                            (nstreams ÷ 2 + za) in
                 if negb (RT4.no_arb_ori ptype PTYPE_TOTAL_RND
                                         PTYPE_AZIMUTH_RND scat_data)
                 then (out3, Some RT4.ArbitraryOrientation)
                 else (out3, None)).2 = None →
              (∃ half, nstreams = 2 * half)
              ∧ (∀ l e, l ∈ scat_data → e ∈ l →
                        ptype e = PTYPE_TOTAL_RND
                        ∨ ptype e = PTYPE_AZIMUTH_RND)) as Htail.
    { intros za. cbv zeta. do 2 rt4_step. intros _. rt4_bools.
      split; [by apply even_quot | by apply no_arb_ori_spec]. }
    assert ((quad_type = "D" ∨ quad_type = "G" ∨ quad_type = "L") →
            (∃ half, nstreams = 2 * half)
            ∧ (∀ l e, l ∈ scat_data → e ∈ l →
                      ptype e = PTYPE_TOTAL_RND ∨ ptype e = PTYPE_AZIMUTH_RND) →
            cloudbox_on ≠ 0
            ∧ atmfields_checked = 1 ∧ atmgeom_checked = 1
            ∧ cloudbox_checked = 1 ∧ scat_data_checked = 1
            ∧ atmosphere_dim = 1 ∧ 0 ≤ stokes_dim ≤ 2
            ∧ (∃ upper, cloudbox_limits = [0; upper])
            ∧ scat_data ≠ [] ∧ pnd_ncols = 1
            ∧ (quad_type = "D" ∨ quad_type = "G" ∨ quad_type = "L")
            ∧ (∃ half, nstreams = 2 * half)
            ∧ (∀ l e, l ∈ scat_data → e ∈ l →
                      ptype e = PTYPE_TOTAL_RND
                      ∨ ptype e = PTYPE_AZIMUTH_RND)) as Hall.
    { intros Hq [Heven Hp]. rt4_bools.
      split_and!; try lia; try done.
      by apply (cloudbox_limits_shape _ lower atmosphere_dim). }
    destruct (String.eqb_spec quad_type "D") as [HD|HD];
      [|destruct (String.eqb_spec quad_type "G") as [HG|HG];
        [|destruct (String.eqb_spec quad_type "L") as [HL|HL]]];
      simpl; try done;
      try destruct (negb (add_straight_angles =? 0));
      intros Hrun; apply Hall; auto; by apply Htail in Hrun.
  - intros (Hon & -> & -> & -> & -> & -> & Hs & [upper ->] & Hsd & -> & Hq
            & Heven & Hp).
    rewrite (proj2 (Z.eqb_neq _ _) Hon). simpl.
    rewrite (proj2 (Z.ltb_ge _ _)), (proj2 (Z.ltb_ge _ _)) by lia. simpl.
    rewrite bool_decide_eq_false_2 by done.
    apply (proj2 (even_quot _)) in Heven.
    pose proof (proj2 no_arb_ori_spec Hp) as Hp'.
    destruct Hq as [-> | [-> | ->]]; simpl;
      try destruct (negb (add_straight_angles =? 0)); simpl;
      rewrite (proj2 (Z.eqb_eq _ _) Heven), Hp'; reflexivity.
Qed.
Ltac rt4_throw_step :=
  match goal with
  | |- context [if ?c then (_, Some _) else _] =>
      let E := fresh "E" in
      destruct c eqn:E; [simpl; intros [= <-]; try done|]
  end.

(** X20.  When [check_rt4_input] returns, [nhstreams] is half of
    [nstreams], [nhza] is 1 if [add_straight_angles] is set and the
    quadrature is not L and 0 otherwise, and [nummu] is their sum. *)
Theorem check_rt4_input_outputs :
  run.2 = None →
  2 * RT4.nhstreams run.1 = nstreams
  ∧ RT4.nhza run.1
    = (if String.eqb quad_type "L" || (add_straight_angles =? 0)
       then 0 else 1)
  ∧ RT4.nummu run.1 = RT4.nhstreams run.1 + RT4.nhza run.1.
Proof.
  unfold run, RT4.check_rt4_input.
  do 7 rt4_step.
  destruct (cloudbox_limits !! 0%nat) as [lower|] eqn:Hlow; [|done].
  do 5 rt4_step.
  destruct (String.eqb_spec quad_type "D") as [HD|HD];
    [|destruct (String.eqb_spec quad_type "G") as [HG|HG];
      [|destruct (String.eqb_spec quad_type "L") as [HL|HL]]];
    simpl; try done; subst; simpl;
    try destruct (add_straight_angles =? 0); simpl;
    do 2 rt4_step; intros _; rt4_bools; simpl; lia.
Qed.

(** X21.  The outputs are written before the last two checks.  A call
    rejected for an odd [nstreams] has already set [nhza] and left the
    other two outputs alone; a call rejected for an arbitrarily oriented
    scattering element has set all three outputs as a successful call
    does; every earlier rejection leaves the three outputs untouched. *)
Theorem check_rt4_input_outputs_on_throw (e : RT4.exn) :
  run.2 = Some e →
  match e with
  | RT4.OddNumberOfStreams =>
      RT4.nhstreams run.1 = RT4.nhstreams out
      ∧ RT4.nummu run.1 = RT4.nummu out
      ∧ RT4.nhza run.1
        = (if String.eqb quad_type "L" || (add_straight_angles =? 0)
           then 0 else 1)
  | RT4.ArbitraryOrientation =>
      RT4.nhstreams run.1 = nstreams ÷ 2
      ∧ RT4.nummu run.1 = nstreams ÷ 2 + RT4.nhza run.1
      ∧ RT4.nhza run.1
        = (if String.eqb quad_type "L" || (add_straight_angles =? 0)
           then 0 else 1)
  | _ => run.1 = out
  end.
Proof.
  unfold run, RT4.check_rt4_input.
  do 7 rt4_throw_step.
  destruct (cloudbox_limits !! 0%nat) as [lower|] eqn:Hlow;
    [|simpl; intros [= <-]; done].
  do 5 rt4_throw_step.
  destruct (String.eqb_spec quad_type "D") as [HD|HD];
    [|destruct (String.eqb_spec quad_type "G") as [HG|HG];
      [|destruct (String.eqb_spec quad_type "L") as [HL|HL]]];
    simpl; try (intros [= <-]; done); subst; simpl;
    try destruct (add_straight_angles =? 0); simpl;
    do 2 rt4_throw_step; done.
Qed.
End rt4_check.


Lemma check_rt4_input_outputs_witness :
  let run := RT4.check_rt4_input id 20 200 (RT4.mk_outputs 0 0 0)
               1 1 1 1 1 [0; 7] rt4_scat_data 1 1 16 "D" 1 1 in
  2 * RT4.nhstreams run.1 = 16
  ∧ RT4.nhza run.1 = 1
  ∧ RT4.nummu run.1 = RT4.nhstreams run.1 + RT4.nhza run.1.
Proof.
  exact (check_rt4_input_outputs id 20 200 (RT4.mk_outputs 0 0 0)
           1 1 1 1 1 [0; 7] rt4_scat_data 1 1 16 "D" 1 1 eq_refl).
Defined.

Lemma check_rt4_input_outputs_on_throw_witness :
  let run := RT4.check_rt4_input id 20 200 (RT4.mk_outputs 0 0 0)
               1 1 1 1 1 [0; 7] [[20; 300]] 1 1 16 "G" 0 1 in
  RT4.nhstreams run.1 = 8
  ∧ RT4.nummu run.1 = 8 + RT4.nhza run.1
  ∧ RT4.nhza run.1 = 0.
Proof.
  exact (check_rt4_input_outputs_on_throw id 20 200 (RT4.mk_outputs 0 0 0)
           1 1 1 1 1 [0; 7] [[20; 300]] 1 1 16 "G" 0 1
           RT4.ArbitraryOrientation eq_refl).
Defined.

(** * Properties of the zenith-angle grid adjustment *)

Section scat_za_grid.
Context {Numeric : Type}.
Variable acos : Numeric → Numeric.
Variable Nmul Nsub : Numeric → Numeric → Numeric.
Variable RAD2DEG c180 : Numeric.
Variable grid : Vector.t.
Variable mu_values : ConstVectorView.t.
Variable nummu : Index.
Variable mu : Index → Numeric.
Variable mode : BuildMode.

Hypothesis grid_extent :
  2 * nummu ≤ Range.mextent (ConstVectorView.mrange grid).
Hypothesis mu_extent : nummu ≤ Range.mextent (ConstVectorView.mrange mu_values).
Hypothesis grid_stride : Range.mstride (ConstVectorView.mrange grid) ≠ 0.
Hypothesis apart :
  ∀ i j, 0 ≤ i < 2 * nummu → 0 ≤ j < nummu →
         element_address grid i ≠ element_address mu_values j.

Let za (x : Numeric) : Numeric := Nmul (acos x) RAD2DEG.

(** What the loop needs of a store: the grid is allocated and [mu_values]
    holds [mu]. *)
Let ready (mem : gmap Z Numeric) : Prop :=
  (∀ i, 0 ≤ i < 2 * nummu → is_Some (mem !! element_address grid i))
  ∧ (∀ j, 0 ≤ j < nummu → mem !! element_address mu_values j = Some (mu j)).

Lemma element_address_inj (i j : Index) :
  element_address grid i = element_address grid j → i = j.
Proof. unfold element_address. intros H. nia. Qed.

Lemma ready_insert (mem : gmap Z Numeric) (i : Index) (x : Numeric) :
  0 ≤ i < 2 * nummu →
  ready mem → ready (<[element_address grid i:=x]> mem).
Proof.
  intros Hi [Hg Hm]. split.
  - intros i' Hi'. apply lookup_insert_is_Some'. right. by apply Hg.
  - intros j Hj. rewrite lookup_insert_ne; [by apply Hm|]. by apply apart.
Qed.

Lemma adjust_from_run (k : nat) (j : Index) (mem : gmap Z Numeric) :
  0 ≤ j →
  j + Z.of_nat k = nummu →
  ready mem →
  ∃ mem',
    RT4Grid.adjust_from acos Nmul Nsub RAD2DEG c180 k grid mu_values nummu j
                        mode mem
    = Done (tt, mem')
    ∧ (∀ i, j ≤ i < nummu →
            mem' !! element_address grid (nummu - 1 - i) = Some (za (mu i))
            ∧ mem' !! element_address grid (nummu + i)
              = Some (Nsub c180 (za (mu i))))
    ∧ (∀ a, (∀ i, j ≤ i < nummu →
                  a ≠ element_address grid (nummu - 1 - i)
                  ∧ a ≠ element_address grid (nummu + i)) →
            mem' !! a = mem !! a).
Proof.
  revert j mem. induction k as [|k IH]; intros j mem Hj Hk Hready.
  - exists mem. simpl. rewrite (proj2 (Z.ltb_ge _ _)) by lia.
    split; [done|]. split; [intros i Hi; lia | done].
  - set (p := element_address grid (nummu - 1 - j)).
    set (q := element_address grid (nummu + j)).
    set (mem1 := <[p:=za (mu j)]> mem).
    set (mem2 := <[q:=Nsub c180 (za (mu j))]> mem1).
    assert (ready mem1) as Hready1 by (apply ready_insert; [lia|done]).
    assert (ready mem2) as Hready2 by (apply ready_insert; [lia|done]).
    destruct (IH (j + 1) mem2 ltac:(lia) ltac:(lia) Hready2)
      as (mem' & Hrun & Hset & Hframe).
    exists mem'. split; [|split].
    + cbn [RT4Grid.adjust_from]. rewrite (proj2 (Z.ltb_lt _ _)) by lia.
      rewrite run_bind, const_op_index_get by lia.
      unfold ConstVectorView.get.
      rewrite (run_load _ (mu j)) by (apply Hready; lia).
      rewrite run_bind, op_index_get by lia.
      rewrite run_bind, run_store by (apply Hready; lia).
      fold p. fold mem1.
      rewrite run_bind, const_op_index_get by lia.
      unfold ConstVectorView.get.
      rewrite (run_load _ (mu j)) by (apply Hready1; lia).
      rewrite run_bind, op_index_get by lia.
      rewrite run_bind, run_store by (apply Hready1; lia).
      exact Hrun.
    + intros i Hi. destruct (decide (i = j)) as [->|Hne].
      * rewrite !Hframe.
        -- subst mem2 mem1. split.
           ++ rewrite lookup_insert_ne, lookup_insert_eq; [done|].
              subst p q. intros H%element_address_inj. lia.
           ++ by rewrite lookup_insert_eq.
        -- intros i' Hi'. subst q.
           split; intros H%element_address_inj; lia.
        -- intros i' Hi'. subst p.
           split; intros H%element_address_inj; lia.
      * apply Hset. lia.
    + intros a Ha. rewrite Hframe.
      * subst mem2 mem1. destruct (Ha j ltac:(lia)) as [Hp Hq].
        by rewrite !lookup_insert_ne.
      * intros i Hi. apply Ha. lia.
Qed.

(** X22.  [scat_za_grid_adjust] on a grid of at least [2 * nummu]
    elements with a non-zero stride, allocated apart from [mu_values]:
    it returns in either build, element [nummu - 1 - j] of the grid is
    [acos(mu[j]) * RAD2DEG] and element [nummu + j] is 180 minus that
    value, for every [j < nummu], so the two halves mirror each other
    around the middle; no address outside the first [2 * nummu] grid
    elements is written. *)
Theorem scat_za_grid_adjust_spec (mem : gmap Z Numeric) :
  0 ≤ nummu →
  (∀ i, 0 ≤ i < 2 * nummu → is_Some (mem !! element_address grid i)) →
  (∀ j, 0 ≤ j < nummu → mem !! element_address mu_values j = Some (mu j)) →
  ∃ mem',
    RT4Grid.scat_za_grid_adjust acos Nmul Nsub RAD2DEG c180 grid mu_values
                                nummu mode mem
    = Done (tt, mem')
    ∧ (∀ j, 0 ≤ j < nummu →
            mem' !! element_address grid (nummu - 1 - j)
            = Some (Nmul (acos (mu j)) RAD2DEG)
            ∧ mem' !! element_address grid (nummu + j)
              = Some (Nsub c180 (Nmul (acos (mu j)) RAD2DEG)))
    ∧ (∀ a, (∀ i, 0 ≤ i < 2 * nummu → a ≠ element_address grid i) →
            mem' !! a = mem !! a).
Proof.
  intros Hn Hg Hm.
  destruct (adjust_from_run (Z.to_nat nummu) 0 mem ltac:(lia) ltac:(lia)
              (conj Hg Hm)) as (mem' & Hrun & Hset & Hframe).
  exists mem'. split; [exact Hrun|]. split; [exact Hset|].
  intros a Ha. apply Hframe. intros i Hi. split; apply Ha; lia.
Qed.
End scat_za_grid.

(** * Properties of the Zeeman line-record update *)

Lemma mapM_const_store {Numeric A B} (g : A → Exec.M Numeric B) (h : A → B)
      (l : list A) (mode : BuildMode) (mem : gmap Z Numeric) :
  (∀ x, x ∈ l → g x mode mem = Done (h x, mem)) →
  mapM g l mode mem = Done (h <$> l, mem).
Proof.
  induction l as [|x l IH]; intros Hg; [done|].
  rewrite run_mapM_cons, (Hg x) by left.
  rewrite IH; [done|]. intros y Hy. apply Hg. by right.
Qed.

Section zeeman.
Context {Numeric : Type}.
Context {LineRecord QuantumIdentity_t Key : Type}.
Variable QuantumIdentity : LineRecord → QuantumIdentity_t.
Variable InLower InUpper : Key → QuantumIdentity_t → bool.
Variable set_gl set_gu : Numeric → LineRecord → LineRecord.

Lemma scan_keys_last_index (keys : list Key) (k : Index) (line : LineRecord)
      (upper lower : Index) :
  Zeeman.scan_keys LineRecord QuantumIdentity_t Key QuantumIdentity
                   InLower InUpper keys k line upper lower
  = (last_index (λ q, negb (InLower q (QuantumIdentity line))
                      && InUpper q (QuantumIdentity line)) keys k upper,
     last_index (λ q, InLower q (QuantumIdentity line)) keys k lower).
Proof.
  revert k upper lower. induction keys as [|q keys IH]; intros k upper lower;
    [done|].
  simpl. destruct (InLower q (QuantumIdentity line)); simpl; [apply IH|].
  destruct (InUpper q (QuantumIdentity line)); apply IH.
Qed.

Lemma last_index_spec (P : Key → bool) (keys : list Key) (k none : Index) :
  none < k →
  (last_index P keys k none = none ∧ ∀ q, q ∈ keys → P q = false)
  ∨ (k ≤ last_index P keys k none < k + Z.of_nat (length keys)
     ∧ ∃ q, keys !! Z.to_nat (last_index P keys k none - k) = Some q
            ∧ P q = true
            ∧ ∀ (n : nat) q',
                (Z.to_nat (last_index P keys k none - k) < n)%nat →
                keys !! n = Some q' → P q' = false).
Proof.
  revert k none. induction keys as [|q keys IH]; intros k none Hk; simpl.
  - left. split; [done|]. intros q Hq. by apply elem_of_nil in Hq.
  - destruct (P q) eqn:HP; cbv iota.
    + destruct (IH (k + 1) k ltac:(lia)) as [[Heq Hall] | (Hr & q' & Hq' & HP' & Hlast)].
      * right. rewrite Heq. split; [lia|].
        exists q. replace (Z.to_nat (k - k)) with 0%nat by lia.
        split; [done|]. split; [done|].
        intros n q' Hn Hq'. destruct n as [|n]; [lia|]. simpl in Hq'.
        apply Hall. by eapply list_elem_of_lookup_2.
      * right. split; [lia|]. exists q'.
        replace (Z.to_nat (last_index P keys (k + 1) k - k))
          with (S (Z.to_nat (last_index P keys (k + 1) k - (k + 1)))) by lia.
        split; [done|]. split; [done|].
        intros n q'' Hn Hq''. destruct n as [|n]; [lia|]. simpl in Hq''.
        apply (Hlast n q''); [lia|done].
    + destruct (IH (k + 1) none ltac:(lia)) as [[Heq Hall] | (Hr & q' & Hq' & HP' & Hlast)].
      * left. split; [done|]. intros q' [->|Hq']%elem_of_cons; auto.
      * right. split; [lia|]. exists q'.
        replace (Z.to_nat (last_index P keys (k + 1) none - k))
          with (S (Z.to_nat (last_index P keys (k + 1) none - (k + 1)))) by lia.
        split; [done|]. split; [done|].
        intros n q'' Hn Hq''. destruct n as [|n]; [lia|]. simpl in Hq''.
        apply (Hlast n q''); [lia|done].
Qed.

(** X23.  The key scan of [zeeman_linerecord_precalcModifyFromData]:
    [lower] is -1 when no key is in the line's lower state and otherwise
    the index of the last such key; [upper] is -1 or the index of the
    last key that is in the upper state and not in the lower state, so a
    key matching both states counts as a lower-state key only. *)
Theorem scan_keys_last_match (keys : list Key) (line : LineRecord) :
  let id := QuantumIdentity line in
  let found :=
    Zeeman.scan_keys LineRecord QuantumIdentity_t Key QuantumIdentity
                     InLower InUpper keys 0 line (-1) (-1) in
  ((found.2 = -1 ∧ ∀ q, q ∈ keys → InLower q id = false)
   ∨ (0 ≤ found.2 < Z.of_nat (length keys)
      ∧ ∃ q, keys !! Z.to_nat found.2 = Some q
             ∧ InLower q id = true
             ∧ ∀ (n : nat) q', (Z.to_nat found.2 < n)%nat →
                               keys !! n = Some q' → InLower q' id = false))
  ∧ ((found.1 = -1
      ∧ ∀ q, q ∈ keys → InLower q id = true ∨ InUpper q id = false)
     ∨ (0 ≤ found.1 < Z.of_nat (length keys)
        ∧ ∃ q, keys !! Z.to_nat found.1 = Some q
               ∧ InLower q id = false ∧ InUpper q id = true
               ∧ ∀ (n : nat) q', (Z.to_nat found.1 < n)%nat →
                                 keys !! n = Some q' →
                                 InLower q' id = true ∨ InUpper q' id = false)).
Proof.
  intros id found. subst found. rewrite scan_keys_last_index.
  cbn [fst snd]. fold id. split.
  - destruct (last_index_spec (λ q, InLower q id) keys 0 (-1) ltac:(lia))
      as [[Heq Hall] | (Hr & q & Hq & HP & Hlast)].
    + left. auto.
    + right. rewrite Z.sub_0_r in *. split; [lia|]. exists q. auto.
  - destruct (last_index_spec (λ q, negb (InLower q id) && InUpper q id)
                keys 0 (-1) ltac:(lia))
      as [[Heq Hall] | (Hr & q & Hq & HP & Hlast)].
    + left. split; [done|]. intros q Hq. specialize (Hall q Hq).
      destruct (InLower q id), (InUpper q id); auto.
    + right. rewrite Z.sub_0_r in *. split; [lia|]. exists q.
      apply andb_true_iff in HP as [HL HU]. apply negb_true_iff in HL.
      split; [done|]. split; [done|]. split; [done|].
      intros n q' Hn Hq'. specialize (Hlast n q' Hn Hq').
      destruct (InLower q' id), (InUpper q' id); auto.
Qed.
Lemma scan_keys_range (keys : list Key) (line : LineRecord) :
  let found :=
    Zeeman.scan_keys LineRecord QuantumIdentity_t Key QuantumIdentity
                     InLower InUpper keys 0 line (-1) (-1) in
  (found.1 = -1 ∨ 0 ≤ found.1 < Z.of_nat (length keys))
  ∧ (found.2 = -1 ∨ 0 ≤ found.2 < Z.of_nat (length keys)).
Proof.
  intros found. subst found. rewrite scan_keys_last_index. cbn [fst snd].
  split.
  - destruct (last_index_spec
                (λ q, negb (InLower q (QuantumIdentity line))
                      && InUpper q (QuantumIdentity line)) keys 0 (-1)
                ltac:(lia)) as [[Heq _] | [Hr _]]; [by left | right; lia].
  - destruct (last_index_spec
                (λ q, InLower q (QuantumIdentity line)) keys 0 (-1)
                ltac:(lia)) as [[Heq _] | [Hr _]]; [by left | right; lia].
Qed.

Lemma last_index_found (P : Key → bool) (l : list Key) (k : Index) :
  0 ≤ k →
  negb (last_index P l k (-1) =? -1) = existsb P l.
Proof.
  revert k. induction l as [|q l IH]; intros k Hk; [done|].
  cbn [last_index existsb]. destruct (P q) eqn:HP; cbn [orb].
  - destruct (last_index_spec P l (k + 1) k ltac:(lia)) as [[-> _] | [Hr _]];
      apply negb_true_iff, Z.eqb_neq; lia.
  - apply IH. lia.
Qed.

Lemma key_found_existsb (l : list Key) (line : LineRecord) :
  Zeeman.key_found LineRecord QuantumIdentity_t Key QuantumIdentity
                   InLower InUpper l line
  = existsb (λ q, InLower q (QuantumIdentity line)
                  || InUpper q (QuantumIdentity line)) l.
Proof.
  induction l as [|q l IH]; [done|]. cbn [Zeeman.key_found existsb].
  rewrite IH. by destruct (_ || _).
Qed.

(** X26.  [zeeman_linerecord_precalcPrintMissing] and
    [zeeman_linerecord_precalcModifyFromData] agree on the same keys: a
    line has a key in its lower or upper state, and is therefore not
    reported as missing, exactly when the update finds a lower or an
    upper index for it; and the indices reported for a species are
    exactly the indices of its lines that no key matches. *)
Theorem missing_lines_are_untouched_lines (l : list Key)
        (lines : list LineRecord) (line : LineRecord) :
  (let found :=
     Zeeman.scan_keys LineRecord QuantumIdentity_t Key QuantumIdentity
                      InLower InUpper l 0 line (-1) (-1) in
   Zeeman.key_found LineRecord QuantumIdentity_t Key QuantumIdentity
                    InLower InUpper l line
   = negb (found.2 =? -1) || negb (found.1 =? -1))
  ∧ (∀ j : Index,
        j ∈ Zeeman.missing_from LineRecord QuantumIdentity_t Key
              QuantumIdentity InLower InUpper l lines 0
        ↔ ∃ line', 0 ≤ j ∧ lines !! Z.to_nat j = Some line'
                   ∧ Zeeman.key_found LineRecord QuantumIdentity_t Key
                       QuantumIdentity InLower InUpper l line' = false).
Proof.
  split.
  - cbv zeta. rewrite scan_keys_last_index. cbn [fst snd].
    rewrite !last_index_found by lia. rewrite key_found_existsb.
    induction l as [|q l IH]; [done|]. cbn [existsb]. rewrite IH.
    destruct (InLower q (QuantumIdentity line)),
      (InUpper q (QuantumIdentity line)); simpl;
      rewrite ?orb_true_r; try done.
  - assert (∀ (k j : Index),
              j ∈ Zeeman.missing_from LineRecord QuantumIdentity_t Key
                    QuantumIdentity InLower InUpper l lines k
              ↔ ∃ line', k ≤ j ∧ lines !! Z.to_nat (j - k) = Some line'
                         ∧ Zeeman.key_found LineRecord QuantumIdentity_t Key
                             QuantumIdentity InLower InUpper l line' = false)
      as Hgen.
    { induction lines as [|x lines IH]; intros k j.
      - simpl. split; [intros H; by apply elem_of_nil in H|].
        by intros (line' & _ & H & _).
      - cbn [Zeeman.missing_from].
        destruct (Zeeman.key_found _ _ _ _ _ _ l x) eqn:Hx; cbn [negb].
        + rewrite IH. split.
          * intros (line' & Hk & Hl & Hf). exists line'.
            split; [lia|]. split; [|done].
            replace (Z.to_nat (j - k)) with (S (Z.to_nat (j - (k + 1))))
              by lia. done.
          * intros (line' & Hk & Hl & Hf).
            destruct (Z.to_nat (j - k)) as [|n] eqn:Hn.
            -- simpl in Hl. injection Hl as ->. congruence.
            -- exists line'. split; [lia|]. split; [|done].
               replace (Z.to_nat (j - (k + 1))) with n by lia. done.
        + rewrite elem_of_cons, IH. split.
          * intros [-> | (line' & Hk & Hl & Hf)].
            -- exists x. split; [lia|]. split; [|done].
               by replace (Z.to_nat (k - k)) with 0%nat by lia.
            -- exists line'. split; [lia|]. split; [|done].
               replace (Z.to_nat (j - k)) with (S (Z.to_nat (j - (k + 1))))
                 by lia. done.
          * intros (line' & Hk & Hl & Hf).
            destruct (Z.to_nat (j - k)) as [|n] eqn:Hn.
            -- left. lia.
            -- right. exists line'. split; [lia|]. split; [|done].
               replace (Z.to_nat (j - (k + 1))) with n by lia. done. }
    intros j. rewrite Hgen. by rewrite Z.sub_0_r.
Qed.

Variable keys : list Key.
Variable data : ConstVectorView.t.
Variable d : Index → Numeric.
Variable mode : BuildMode.
Variable mem : gmap Z Numeric.

Hypothesis same_size : Z.of_nat (length keys) = ConstVectorView.nelem data.
Hypothesis data_values :
  ∀ k, 0 ≤ k < ConstVectorView.nelem data →
       mem !! element_address data k = Some (d k).

(** The line after the update, and whether it was touched at all and
    touched in both states. *)
Let found (line : LineRecord) : Index * Index :=
  Zeeman.scan_keys LineRecord QuantumIdentity_t Key QuantumIdentity
                   InLower InUpper keys 0 line (-1) (-1).
Let updated (line : LineRecord) : LineRecord :=
  let line1 := if negb ((found line).2 =? -1)
               then set_gl (d (found line).2) line else line in
  if negb ((found line).1 =? -1)
  then set_gu (d (found line).1) line1 else line1.
Let touched (line : LineRecord) : bool :=
  negb ((found line).2 =? -1) || negb ((found line).1 =? -1).
Let touched_twice (line : LineRecord) : bool :=
  negb ((found line).2 =? -1) && negb ((found line).1 =? -1).

Lemma data_read (k : Index) :
  0 ≤ k < Z.of_nat (length keys) →
  ConstVectorView.op_index data k mode mem = Done (d k, mem).
Proof.
  intros Hk. unfold ConstVectorView.nelem in *.
  rewrite const_op_index_get by lia. unfold ConstVectorView.get.
  apply run_load. apply data_values. lia.
Qed.

Lemma modify_line_run (line : LineRecord) (i j : Index) :
  Zeeman.modify_line LineRecord QuantumIdentity_t Key QuantumIdentity
                     InLower InUpper set_gl set_gu keys data line i j
                     mode mem
  = Done ((updated line,
           (if touched line then i + 1 else i,
            if touched_twice line then j + 1 else j)), mem).
Proof.
  unfold Zeeman.modify_line, updated, touched, touched_twice, found.
  destruct (scan_keys_range keys line) as [Hu Hl].
  destruct (Zeeman.scan_keys _ _ _ _ _ _ keys 0 line (-1) (-1))
    as [upper lower]. cbn [fst snd] in *.
  destruct (Z.eqb_spec lower (-1)) as [Hl1|Hl1],
    (Z.eqb_spec upper (-1)) as [Hu1|Hu1]; cbn [negb];
    rewrite run_bind;
    repeat (first [ rewrite run_bind
                  | rewrite data_read by lia
                  | rewrite run_ret ]);
    reflexivity.
Qed.

Lemma modify_lines_run (lines : list LineRecord) (i j : Index) :
  Zeeman.modify_lines LineRecord QuantumIdentity_t Key QuantumIdentity
                      InLower InUpper set_gl set_gu keys data lines i j
                      mode mem
  = Done ((updated <$> lines,
           (i + count_if touched lines, j + count_if touched_twice lines)),
          mem).
Proof.
  revert i j. induction lines as [|line lines IH]; intros i j.
  - simpl. rewrite run_ret, !Z.add_0_r. done.
  - cbn [Zeeman.modify_lines]. rewrite run_bind, modify_line_run.
    rewrite run_bind, IH, run_ret. cbn [fmap list_fmap count_if fold_right].
    do 3 f_equal. fold (count_if touched lines).
    fold (count_if touched_twice lines).
    destruct (touched line), (touched_twice line); f_equal; lia.
Qed.

(** X24.  [zeeman_linerecord_precalcModifyFromData] with as many data
    values as keys, the data being readable: it returns without throwing
    and without writing to the store; every line gets [gl] from the data
    value of the last key in its lower state and [gu] from that of the
    last key that is in its upper state only, a line no key matches is
    left as it is, and for each species the reported counts are the
    numbers of lines touched and of lines touched in both states. *)
Theorem zeeman_modify_from_data (lines_per_species : list (list LineRecord)) :
  ∃ m,
    Zeeman.zeeman_linerecord_precalcModifyFromData
      LineRecord QuantumIdentity_t Key QuantumIdentity InLower InUpper
      set_gl set_gu lines_per_species keys data
    = Returns m
    ∧ m mode mem
      = Done ((λ lines,
                 ((λ line,
                     let found :=
                       Zeeman.scan_keys LineRecord QuantumIdentity_t Key
                         QuantumIdentity InLower InUpper keys 0 line (-1) (-1)
                     in
                     let line1 := if negb (found.2 =? -1)
                                  then set_gl (d found.2) line else line in
                     if negb (found.1 =? -1)
                     then set_gu (d found.1) line1 else line1) <$> lines,
                  (count_if
                     (λ line,
                        let found :=
                          Zeeman.scan_keys LineRecord QuantumIdentity_t Key
                            QuantumIdentity InLower InUpper keys 0 line
                            (-1) (-1) in
                        negb (found.2 =? -1) || negb (found.1 =? -1)) lines,
                   Z.of_nat (length lines),
                   count_if
                     (λ line,
                        let found :=
                          Zeeman.scan_keys LineRecord QuantumIdentity_t Key
                            QuantumIdentity InLower InUpper keys 0 line
                            (-1) (-1) in
                        negb (found.2 =? -1) && negb (found.1 =? -1)) lines)))
                <$> lines_per_species, mem).
Proof.
  unfold Zeeman.zeeman_linerecord_precalcModifyFromData.
  rewrite (proj2 (Z.eqb_eq _ _) same_size). cbn [negb].
  eexists. split; [reflexivity|].
  apply mapM_const_store. intros lines _.
  unfold Zeeman.modify_species. rewrite run_bind, modify_lines_run.
  rewrite run_ret. reflexivity.
Qed.
End zeeman.

Lemma scat_za_grid_adjust_spec_witness :
  ∃ mem',
    RT4Grid.scat_za_grid_adjust PrimFloat.abs PrimFloat.mul PrimFloat.sub
                                2%float 180%float grid_view mu_view 2 Debug
                                store_1_to_9
    = Done (tt, mem')
    ∧ (∀ j, 0 ≤ j < 2 →
            mem' !! element_address grid_view (2 - 1 - j)
            = Some (PrimFloat.mul (PrimFloat.abs (mu_at j)) 2)
            ∧ mem' !! element_address grid_view (2 + j)
              = Some (PrimFloat.sub 180
                        (PrimFloat.mul (PrimFloat.abs (mu_at j)) 2)))
    ∧ (∀ a, (∀ i, 0 ≤ i < 2 * 2 → a ≠ element_address grid_view i) →
            mem' !! a = store_1_to_9 !! a).
Proof.
  apply (scat_za_grid_adjust_spec PrimFloat.abs PrimFloat.mul PrimFloat.sub
           2%float 180%float grid_view mu_view 2 mu_at Debug).
  - simpl. lia.
  - simpl. lia.
  - simpl. lia.
  - intros i j Hi Hj. unfold element_address. simpl. lia.
  - lia.
  - intros i Hi.
    assert (i = 0 ∨ i = 1 ∨ i = 2 ∨ i = 3) as [-> | [-> | [-> | ->]]] by lia;
      vm_compute; eauto.
  - intros j Hj.
    assert (j = 0 ∨ j = 1) as [-> | ->] by lia; vm_compute; reflexivity.
Defined.

Lemma zeeman_modify_from_data_witness :
  ∃ m,
    Zeeman.zeeman_linerecord_precalcModifyFromData
      (Z * (float * float)) Z (Z * Z) fst zeeman_in_lower zeeman_in_upper
      zeeman_set_gl zeeman_set_gu zeeman_lines zeeman_keys zeeman_data
    = Returns m
    ∧ m Debug store_1_to_9
      = Done ([([(7, (1%float, 2%float)); (5, (0%float, 0%float))],
                (1, 2, 1))], store_1_to_9).
Proof.
  destruct (zeeman_modify_from_data fst zeeman_in_lower zeeman_in_upper
              zeeman_set_gl zeeman_set_gu zeeman_keys zeeman_data
              zeeman_data_at Debug store_1_to_9 eq_refl) with zeeman_lines
    as (m & Hm & Hrun).
  - intros k Hk. change (ConstVectorView.nelem zeeman_data) with 2 in Hk.
    assert (k = 0 ∨ k = 1) as [-> | ->] by lia; vm_compute; reflexivity.
  - exists m. split; [exact Hm | exact Hrun].
Defined.

Lemma quantum_set_index_bounds_witness :
  QuantumNumbers.Set_index Debug (QuantumNumbers.default ratio_undefined)
                           (-1) ratio_half
  = Undefined.
Proof.
  apply (quantum_set_index_bounds Debug
           (QuantumNumbers.default ratio_undefined) (-1) ratio_half);
    [reflexivity | lia].
Defined.
